(* Shallow embedding of src/examples/load_boundaries.py: join-key
   resolution on the district boundaries (lines 65-68), the left merge
   with the district attribute table (lines 71-76) and its summary
   statistics (lines 97-101), the spatial join of Example 3 (lines
   111-117), the area / population-density derivation of Example 4
   (lines 131-140) with its statistics and density report (lines
   143-152), and the Amman filter of Example 6 (lines 182-185).

   A pandas / GeoPandas frame is modelled column-major, as pandas stores
   it: an ordered list of named columns of cell values, a row count and
   (for a GeoDataFrame) an optional coordinate reference system.  Cells
   are numbers (rationals: the computations below involve no rounding
   that matters for the properties studied), strings, the IEEE
   infinities, NaN (pandas' missing marker) and geometries. *)

From Stdlib Require Import List String Bool Arith Lia QArith Qabs Sorted Permutation.
Import ListNotations.
Open Scope nat_scope.
Open Scope string_scope.
Local Abbreviation length := List.length.

(** * Cells, errors and the result monad *)

(** A geometry: a polygon ring given by its vertices. *)
Definition geom := list (Q * Q).

Inductive value :=
| VStr (s : string)
| VNum (q : Q)
| VInf (neg : bool)
| VNaN
| VGeom (g : geom).

(** A numeric cell (a number or an infinity); NaN is not one. *)
Definition num_cell (v : value) : bool :=
  match v with VNum _ | VInf _ => true | _ => false end.

(** A cell that makes its column of pandas' [object] dtype; a column of
    numbers, infinities and NaN only is of a numeric dtype. *)
Definition object_cell (v : value) : bool :=
  match v with VStr _ | VGeom _ => true | _ => false end.

(** Exceptions the script can raise on the modelled lines. *)
Inductive error :=
| KeyError (missing : list string)
| ValueError (msg : string)
| MergeError (msg : string)
| TypeError (msg : string).

Inductive result (A : Type) :=
| Ok (a : A)
| Err (e : error).
Arguments Ok {A} a.
Arguments Err {A} e.

Definition bind {A B} (m : result A) (f : A -> result B) : result B :=
  match m with Ok a => f a | Err e => Err e end.

Notation "x <- m ;; k" := (bind m (fun x => k))
  (at level 61, m at next level, right associativity).

Fixpoint mapM {A B} (f : A -> result B) (l : list A) : result (list B) :=
  match l with
  | [] => Ok []
  | x :: t => y <- f x ;; ys <- mapM f t ;; Ok (y :: ys)
  end.

(** Key equality used by [DataFrame.merge]: equal strings, equal numbers,
    equal infinities, and (pandas' documented behaviour) a null key
    matches a null key. *)
Definition key_eqb (a b : value) : bool :=
  match a, b with
  | VStr x, VStr y => String.eqb x y
  | VNum x, VNum y => Qeq_bool x y
  | VInf x, VInf y => Bool.eqb x y
  | VNaN, VNaN => true
  | _, _ => false
  end.

(** Float division [a / b] on cells (pandas' element-wise [/]):
    NaN propagates, x/0 is a signed infinity, 0/0 is NaN, x/inf is 0;
    dividing a string or a geometry raises [TypeError]. *)
Definition vdiv (a b : value) : result value :=
  match a, b with
  | (VStr _ | VGeom _), _ | _, (VStr _ | VGeom _) =>
      Err (TypeError "unsupported operand type(s) for /")
  | VNaN, _ | _, VNaN => Ok VNaN
  | VNum x, VNum y =>
      if Qeq_bool y 0%Q then
        if Qeq_bool x 0%Q then Ok VNaN else Ok (VInf (negb (Qle_bool 0%Q x)))
      else Ok (VNum (x / y)%Q)
  | VNum _, VInf _ => Ok (VNum 0%Q)
  | VInf n, VNum y => Ok (VInf (xorb n (negb (Qle_bool 0%Q y))))
  | VInf _, VInf _ => Ok VNaN
  end.

(** * Frames *)

Record frame := mkFrame {
  crs : option string;
  nrows : nat;
  columns : list (string * list value)
}.

Definition col_names (df : frame) : list string := map fst (columns df).

Definition mem (c : string) (cs : list string) : bool :=
  existsb (String.eqb c) cs.

Fixpoint lookup (c : string) (cs : list (string * list value))
  : option (list value) :=
  match cs with
  | [] => None
  | (c', vs) :: t => if String.eqb c c' then Some vs else lookup c t
  end.

(** [df[c]]: raises [KeyError] when the column is absent. *)
Definition getcol (df : frame) (c : string) : result (list value) :=
  match lookup c (columns df) with
  | Some vs => Ok vs
  | None => Err (KeyError [c])
  end.

Fixpoint set_column (c : string) (vs : list value)
  (cs : list (string * list value)) : list (string * list value) :=
  match cs with
  | [] => [(c, vs)]
  | (c', vs') :: t =>
      if String.eqb c c' then (c, vs) :: t else (c', vs') :: set_column c vs t
  end.

(** [df[c] = vs], in place: an existing column keeps its position,
    a new column is appended. *)
Definition setcol (df : frame) (c : string) (vs : list value) : frame :=
  mkFrame (crs df) (nrows df) (set_column c vs (columns df)).

(** [df[[c1; ...; cn]]]: raises [KeyError] listing the absent columns. *)
Definition select (df : frame) (names : list string) : result frame :=
  match filter (fun c => negb (mem c (col_names df))) names with
  | [] => Ok (mkFrame (crs df) (nrows df)
                (map (fun c => (c, match lookup c (columns df) with
                                   | Some vs => vs | None => [] end)) names))
  | missing => Err (KeyError missing)
  end.

(** * Left merge ([DataFrame.merge(..., how='left')]) *)

(** The row pairing of a left merge: left rows in order; each is paired
    with every matching right row, in right order, or with none. *)
Definition merge_pairs (lkv rkv : list value) (nl nr : nat)
  : list (nat * option nat) :=
  flat_map (fun i =>
    match filter (fun j => key_eqb (nth i lkv VNaN) (nth j rkv VNaN))
                 (seq 0 nr) with
    | [] => [(i, None)]
    | js => map (fun j => (i, Some j)) js
    end) (seq 0 nl).

Definition suffix_if (others : list string) (sfx c : string) : string :=
  if mem c others then String.append c sfx else c.

Definition left_cell (vs : list value) (p : nat * option nat) : value :=
  nth (fst p) vs VNaN.

Definition right_cell (vs : list value) (p : nat * option nat) : value :=
  match snd p with Some j => nth j vs VNaN | None => VNaN end.

(** pandas' check of the key dtypes before merging
    ([_maybe_coerce_merge_keys]): a key column of object dtype cannot be
    merged with a key column of numeric dtype; the check is skipped when
    a key column is empty.  (The model does not tell integers from
    floats: a number in an object column counts as a Python float, for
    which pandas infers "mixed" and raises too.) *)
Definition keys_compatible (lkv rkv : list value) : bool :=
  match lkv, rkv with
  | [], _ | _, [] => true
  | _, _ => Bool.eqb (existsb object_cell lkv) (existsb object_cell rkv)
  end.

(** [Index.duplicated()]: whether each label occurred earlier. *)
Fixpoint duplicated_from (seen : list string) (l : list string) : list bool :=
  match l with
  | [] => []
  | x :: t => mem x seen :: duplicated_from (x :: seen) t
  end.

Definition duplicated (l : list string) : list bool := duplicated_from [] l.

(** A label duplicated after renaming that was not already duplicated
    before ([_items_overlap_with_suffix]). *)
Definition suffix_clash (orig renamed : list string) : bool :=
  existsb (fun p => fst p && negb (snd p))
    (combine (duplicated renamed) (duplicated orig)).

Definition merge_label_clash (lc rc : list string) : bool :=
  suffix_clash lc (map (suffix_if rc "_x") lc)
  || suffix_clash rc (map (suffix_if lc "_y") rc).

(** [l.merge(r, left_on=lk, right_on=rk, how='left')] with the default
    suffixes ("_x", "_y") on overlapping column names.  Raises
    [KeyError] for a missing key column, [ValueError] for key columns
    of incompatible dtypes, and [MergeError] when the suffixes create
    duplicate column names. *)
Definition merge_left (l r : frame) (lk rk : string) : result frame :=
  lkv <- getcol l lk ;;
  rkv <- getcol r rk ;;
  if negb (keys_compatible lkv rkv) then
    Err (ValueError "You are trying to merge on object and float64 columns. If you wish to proceed you should use pd.concat")
  else if merge_label_clash (col_names l) (col_names r) then
    Err (MergeError "Passing 'suffixes' which cause duplicate columns is not allowed.")
  else
  let ps := merge_pairs lkv rkv (nrows l) (nrows r) in
  Ok (mkFrame (crs l) (List.length ps)
        (map (fun '(c, vs) => (suffix_if (col_names r) "_x" c,
                               map (left_cell vs) ps)) (columns l)
         ++ map (fun '(c, vs) => (suffix_if (col_names l) "_y" c,
                                  map (right_cell vs) ps)) (columns r))%list).

(** * Example 2: join-key resolution and merge (lines 63-76) *)

Definition long_wikidata_col : string :=
  "districts_for_suave_with100K_2_no_wkt_wikidata#hiddenmore".

Definition measure_col : string := "Diarrheal Diseases per 100K".

(** The column the script copies into [wikidata_join] (lines 65-68). *)
Definition resolve_join_col (df : frame) : string :=
  if mem long_wikidata_col (col_names df) then long_wikidata_col
  else "wikidata".

(** Lines 65-68: [districts['wikidata_join'] = districts[<resolved>]];
    returns the (mutated) districts frame. *)
Definition resolve_step (districts : frame) : result frame :=
  vs <- getcol districts (resolve_join_col districts) ;;
  Ok (setcol districts "wikidata_join" vs).

(** Lines 65-76: returns the mutated [districts] and [districts_merged]. *)
Definition reconcile (districts districts_csv : frame)
  : result (frame * frame) :=
  d <- resolve_step districts ;;
  sel <- select districts_csv ["wikidata"; measure_col] ;;
  m <- merge_left d sel "wikidata_join" "wikidata" ;;
  Ok (d, m).

(** * Example 4: area and population density (lines 131-140) *)

Definition reproj_cell (reproject : string -> string -> geom -> geom)
  (src dst : string) (v : value) : value :=
  match v with VGeom g => VGeom (reproject src dst g) | _ => v end.

(** [GeoDataFrame.to_crs(dst)]: a reprojected copy; a frame without a
    CRS cannot be transformed. *)
Definition to_crs (reproject : string -> string -> geom -> geom)
  (df : frame) (dst : string) : result frame :=
  match crs df with
  | None => Err (ValueError "Cannot transform naive geometries.")
  | Some src =>
      g <- getcol df "geometry" ;;
      Ok (mkFrame (Some dst) (nrows df)
            (set_column "geometry" (map (reproj_cell reproject src dst) g)
               (columns df)))
  end.

(** [GeoSeries.area], in the units of the frame's CRS; a missing
    geometry has area NaN. *)
Definition area_cell (area : geom -> Q) (v : value) : value :=
  match v with VGeom g => VNum (area g) | _ => VNaN end.

Definition pop_col : string :=
  "districts_for_suave_with100K_2_no_wkt_Population 2024#number".

Definition utm36n : string := "EPSG:32636".

(** Lines 131-140; returns [districts_utm]. *)
Definition example4 (reproject : string -> string -> geom -> geom)
  (area : geom -> Q) (districts : frame) : result frame :=
  utm <- to_crs reproject districts utm36n ;;
  g <- getcol utm "geometry" ;;
  a <- mapM (fun v => vdiv (area_cell area v) (VNum 1000000%Q)) g ;;
  let utm := setcol utm "area_km2" a in
  if mem pop_col (col_names districts) then
    p <- getcol districts pop_col ;;
    let utm := setcol utm "population" p in
    pp <- getcol utm "population" ;;
    aa <- getcol utm "area_km2" ;;
    d <- mapM (fun xy => vdiv (fst xy) (snd xy)) (combine pp aa) ;;
    Ok (setcol utm "pop_density_per_km2" d)
  else Ok utm.

(** * The script's variables, threaded through Examples 2 and 4 *)

Record env := mkEnv {
  districts : frame;
  districts_csv : frame;
  districts_merged : option frame;
  districts_utm : option frame
}.

Definition example2 (e : env) : result env :=
  p <- reconcile (districts e) (districts_csv e) ;;
  Ok (mkEnv (fst p) (districts_csv e) (Some (snd p)) (districts_utm e)).

Definition example4_step (reproject : string -> string -> geom -> geom)
  (area : geom -> Q) (e : env) : result env :=
  u <- example4 reproject area (districts e) ;;
  Ok (mkEnv (districts e) (districts_csv e) (districts_merged e) (Some u)).

(** * Sample data *)

Definition sq : geom := [(0,0); (1,0); (1,1); (0,1)]%Q.

Definition bnd : frame :=
  mkFrame (Some "EPSG:4326") 2
    [("name_en", [VStr "Amman"; VStr "Irbid"]);
     ("wikidata", [VStr "Q1"; VStr "Q2"]);
     ("geometry", [VGeom sq; VGeom sq])].

Definition attrs : frame :=
  mkFrame None 1
    [("wikidata", [VStr "Q1"]);
     (measure_col, [VNum (25 # 2)])].

Definition attrs_dup : frame :=
  mkFrame None 2
    [("wikidata", [VStr "Q1"; VStr "Q1"]);
     (measure_col, [VNum 3%Q; VNum 4%Q])].

Definition bnd_both : frame :=
  mkFrame (Some "EPSG:4326") 1
    [("name_en", [VStr "Amman"]);
     ("wikidata", [VStr "Q1"]);
     (long_wikidata_col, [VStr "Q9"]);
     ("geometry", [VGeom sq])].

Definition bnd_none : frame :=
  mkFrame (Some "EPSG:4326") 1
    [("name_en", [VStr "Amman"]);
     ("geometry", [VGeom sq])].

(** * Views used in the statements *)

(** The cell values of row [k] of a frame, in column order. *)
Definition row_values (df : frame) (k : nat) : list value :=
  map (fun cv => nth k (snd cv) VNaN) (columns df).

(** Attribute keys are unique: no two attribute rows match each other. *)
Definition keys_unique (kv : list value) (n : nat) : Prop :=
  forall j1 j2, j1 < n -> j2 < n ->
    key_eqb (nth j1 kv VNaN) (nth j2 kv VNaN) = true -> j1 = j2.

(** Attribute rows whose key matches the key [k]. *)
Definition matches (k : value) (kv : list value) (n : nat) : list nat :=
  filter (fun j => key_eqb k (nth j kv VNaN)) (seq 0 n).

(** The number of output rows of a left merge coming from left row [i]:
    one per matching right row, or one when nothing matches. *)
Definition contribution (kd ak : list value) (na i : nat) : nat :=
  Nat.max 1 (length (matches (nth i kd VNaN) ak na)).

(** For each output row of a left merge, the left row it comes from. *)
Definition source_rows (kd ak : list value) (nd na : nat) : list nat :=
  flat_map (fun i => repeat i (contribution kd ak na i)) (seq 0 nd).

(** * Lemmas on the frame operations *)

Lemma lookup_set_column_same c vs cs :
  lookup c (set_column c vs cs) = Some vs.
Proof.
  induction cs as [|[c' vs'] t IH]; simpl.
  - now rewrite String.eqb_refl.
  - destruct (String.eqb c c') eqn:E; simpl.
    + now rewrite String.eqb_refl.
    + now rewrite E.
Qed.

Lemma lookup_set_column_other c c' vs cs :
  String.eqb c c' = false ->
  lookup c (set_column c' vs cs) = lookup c cs.
Proof.
  intros Hne. induction cs as [|[c'' vs'] t IH]; simpl.
  - now rewrite Hne.
  - destruct (String.eqb c' c'') eqn:E; simpl.
    + apply String.eqb_eq in E; subst c''. now rewrite Hne.
    + destruct (String.eqb c c''); auto.
Qed.

Lemma lookup_mem c cs :
  mem c (map fst cs) = false <-> lookup c cs = None.
Proof.
  induction cs as [|[c' vs] t IH]; simpl; [tauto|].
  unfold mem in *; simpl.
  destruct (String.eqb c c'); simpl; [split; discriminate|exact IH].
Qed.

Lemma mapM_Forall2 {A B} (f : A -> result B) l l' :
  mapM f l = Ok l' -> Forall2 (fun x y => f x = Ok y) l l'.
Proof.
  revert l'. induction l as [|x t IH]; simpl; intros l' H.
  - inversion H; constructor.
  - destruct (f x) as [y|e] eqn:Ef; simpl in H; [|discriminate].
    destruct (mapM f t) as [ys|e] eqn:Et; simpl in H; [|discriminate].
    inversion H; subst. constructor; auto.
Qed.

Lemma Forall2_nth {A B} (P : A -> B -> Prop) l l' da db i :
  Forall2 P l l' -> i < length l -> P (nth i l da) (nth i l' db).
Proof.
  intros H. revert i. induction H; simpl; intros i Hi; [lia|].
  destruct i; auto. apply IHForall2. lia.
Qed.

Lemma key_eqb_sym a b : key_eqb a b = key_eqb b a.
Proof.
  destruct a, b; simpl; auto.
  - apply String.eqb_sym.
  - destruct (Qeq_bool q q0) eqn:E1, (Qeq_bool q0 q) eqn:E2; auto.
    + apply Qeq_bool_iff in E1. apply Qeq_sym, Qeq_bool_iff in E1. congruence.
    + apply Qeq_bool_iff in E2. apply Qeq_sym, Qeq_bool_iff in E2. congruence.
  - destruct neg, neg0; reflexivity.
Qed.

Lemma key_eqb_trans a b c :
  key_eqb a b = true -> key_eqb b c = true -> key_eqb a c = true.
Proof.
  destruct a, b, c; simpl; try discriminate; auto.
  - rewrite !String.eqb_eq. congruence.
  - rewrite !Qeq_bool_iff. intros; eapply Qeq_trans; eauto.
  - destruct neg, neg0, neg1; simpl; congruence.
Qed.

(** * Lemmas on the left merge *)

Definition merge_block (lkv rkv : list value) (nr i : nat)
  : list (nat * option nat) :=
  match matches (nth i lkv VNaN) rkv nr with
  | [] => [(i, None)]
  | js => map (fun j => (i, Some j)) js
  end.

Lemma merge_pairs_blocks lkv rkv nl nr :
  merge_pairs lkv rkv nl nr = flat_map (merge_block lkv rkv nr) (seq 0 nl).
Proof. reflexivity. Qed.

Lemma merge_block_length lkv rkv nr i :
  length (merge_block lkv rkv nr i)
  = Nat.max 1 (length (matches (nth i lkv VNaN) rkv nr)).
Proof.
  unfold merge_block.
  destruct (matches (nth i lkv VNaN) rkv nr) as [|j js]; simpl; auto.
  now rewrite length_map.
Qed.

Lemma flat_map_length_ge {A B} (f : A -> list B) l :
  (forall x, 1 <= length (f x)) -> length l <= length (flat_map f l).
Proof.
  intros Hf. induction l as [|x t IH]; simpl; [lia|].
  rewrite length_app. specialize (Hf x). lia.
Qed.

Lemma flat_map_singleton {A B} (f : A -> list B) (g : A -> B) l :
  (forall x, In x l -> f x = [g x]) -> flat_map f l = map g l.
Proof.
  induction l as [|x t IH]; simpl; intros H; auto.
  rewrite H by auto. simpl. f_equal. apply IH. auto.
Qed.

Lemma filter_le1 {A} (f : A -> bool) l :
  NoDup l ->
  (forall x y, In x l -> In y l -> f x = true -> f y = true -> x = y) ->
  length (filter f l) <= 1.
Proof.
  induction l as [|a t IH]; simpl; intros Hnd H; [lia|].
  inversion Hnd as [|? ? Hna Hndt]; subst.
  destruct (f a) eqn:Fa; simpl.
  - destruct (filter f t) as [|y ys] eqn:Ft; simpl; [lia|].
    assert (Hy : In y (filter f t)) by (rewrite Ft; left; auto).
    apply filter_In in Hy as [Hy Fy].
    assert (a = y) by (apply H; auto). subst. contradiction.
  - apply IH; auto.
Qed.

Lemma matches_le1 k rkv nr :
  keys_unique rkv nr -> length (matches k rkv nr) <= 1.
Proof.
  intros Hu. apply filter_le1; [apply seq_NoDup|].
  intros x y Hx Hy Fx Fy. apply in_seq in Hx, Hy.
  apply Hu; try lia.
  eapply key_eqb_trans; [|exact Fy]. now rewrite key_eqb_sym.
Qed.

Lemma merge_pairs_length_ge lkv rkv nl nr :
  nl <= length (merge_pairs lkv rkv nl nr).
Proof.
  rewrite merge_pairs_blocks.
  rewrite <- (length_seq nl 0) at 1.
  apply flat_map_length_ge. intros i. rewrite merge_block_length. lia.
Qed.

Lemma merge_pairs_unique lkv rkv nl nr :
  keys_unique rkv nr ->
  merge_pairs lkv rkv nl nr
  = map (fun i => (i, hd_error (matches (nth i lkv VNaN) rkv nr))) (seq 0 nl).
Proof.
  intros Hu. rewrite merge_pairs_blocks. apply flat_map_singleton.
  intros i _. unfold merge_block.
  pose proof (matches_le1 (nth i lkv VNaN) rkv nr Hu) as Hle.
  destruct (matches (nth i lkv VNaN) rkv nr) as [|j [|j' js]];
    simpl in *; auto; lia.
Qed.

Lemma in_merge_pairs_unmatched lkv rkv nl nr i :
  i < nl -> matches (nth i lkv VNaN) rkv nr = [] ->
  In (i, None) (merge_pairs lkv rkv nl nr).
Proof.
  intros Hi Hm. rewrite merge_pairs_blocks. apply in_flat_map.
  exists i. split; [apply in_seq; lia|].
  unfold merge_block. rewrite Hm. now left.
Qed.

Lemma merge_left_ok l r lk rk m :
  merge_left l r lk rk = Ok m ->
  exists lkv rkv,
    getcol l lk = Ok lkv /\ getcol r rk = Ok rkv /\
    keys_compatible lkv rkv = true /\
    merge_label_clash (col_names l) (col_names r) = false /\
    let ps := merge_pairs lkv rkv (nrows l) (nrows r) in
    m = mkFrame (crs l) (length ps)
          (map (fun '(c, vs) => (suffix_if (col_names r) "_x" c,
                                 map (left_cell vs) ps)) (columns l)
           ++ map (fun '(c, vs) => (suffix_if (col_names l) "_y" c,
                                    map (right_cell vs) ps)) (columns r))%list.
Proof.
  unfold merge_left, bind.
  destruct (getcol l lk) as [lkv|e]; [|discriminate].
  destruct (getcol r rk) as [rkv|e]; [|discriminate].
  destruct (keys_compatible lkv rkv) eqn:Ek; [|discriminate]. cbn [negb].
  destruct (merge_label_clash (col_names l) (col_names r)) eqn:Ec;
    [discriminate|].
  intros H. inversion H. exists lkv, rkv. repeat split; auto.
Qed.

Lemma nth_map_default {A B} (f : A -> B) l k da db :
  k < length l -> nth k (map f l) db = f (nth k l da).
Proof.
  intros Hk. rewrite (nth_indep _ db (f da)) by (rewrite length_map; auto).
  apply map_nth.
Qed.

Lemma merge_row_values l r ps k :
  k < length ps ->
  map (fun cv => nth k (snd cv) VNaN)
    (map (fun '(c, vs) => (suffix_if (col_names r) "_x" c,
                           map (left_cell vs) ps)) (columns l)
     ++ map (fun '(c, vs) => (suffix_if (col_names l) "_y" c,
                              map (right_cell vs) ps)) (columns r))%list
  = (map (fun cv => left_cell (snd cv) (nth k ps (0, None))) (columns l)
     ++ map (fun cv => right_cell (snd cv) (nth k ps (0, None))) (columns r))%list.
Proof.
  intros Hk. rewrite map_app, !map_map. f_equal; apply map_ext;
    intros [c vs]; simpl; apply nth_map_default; auto.
Qed.

(** * Lemmas on [reconcile] *)

Lemma getcol_lookup df c vs :
  getcol df c = Ok vs <-> lookup c (columns df) = Some vs.
Proof.
  unfold getcol. destruct (lookup c (columns df)); split; intros H;
    inversion H; subst; reflexivity.
Qed.

Lemma select_ok df names sel :
  select df names = Ok sel ->
  sel = mkFrame (crs df) (nrows df)
          (map (fun c => (c, match lookup c (columns df) with
                             | Some vs => vs | None => [] end)) names).
Proof.
  unfold select. destruct (filter _ names); intros H; inversion H; auto.
Qed.

Lemma reconcile_ok b a d m :
  reconcile b a = Ok (d, m) ->
  exists kv sel,
    getcol b (resolve_join_col b) = Ok kv /\
    d = setcol b "wikidata_join" kv /\
    select a ["wikidata"; measure_col] = Ok sel /\
    merge_left d sel "wikidata_join" "wikidata" = Ok m.
Proof.
  unfold reconcile, resolve_step, bind.
  destruct (getcol b (resolve_join_col b)) as [kv|e]; [|discriminate].
  destruct (select a ["wikidata"; measure_col]) as [sel|e]; [|discriminate].
  destruct (merge_left _ sel _ _) as [m'|e] eqn:Hm; [|discriminate].
  intros H. inversion H; subst. eauto 6.
Qed.

(** The selected attribute frame and its key column, once [reconcile]
    has succeeded. *)
Lemma reconcile_parts b a d m ak :
  reconcile b a = Ok (d, m) ->
  getcol a "wikidata" = Ok ak ->
  exists kd ms,
    getcol d "wikidata_join" = Ok kd /\
    ms = match lookup measure_col (columns a) with
         | Some vs => vs | None => [] end /\
    nrows d = nrows b /\
    merge_left d (mkFrame (crs a) (nrows a)
                    [("wikidata", ak); (measure_col, ms)])
      "wikidata_join" "wikidata" = Ok m /\
    m = mkFrame (crs d) (length (merge_pairs kd ak (nrows d) (nrows a)))
          (map (fun '(c, vs) =>
                  (suffix_if ["wikidata"; measure_col] "_x" c,
                   map (left_cell vs) (merge_pairs kd ak (nrows d) (nrows a))))
               (columns d)
           ++ [(suffix_if (col_names d) "_y" "wikidata",
                map (right_cell ak) (merge_pairs kd ak (nrows d) (nrows a)));
               (suffix_if (col_names d) "_y" measure_col,
                map (right_cell ms) (merge_pairs kd ak (nrows d) (nrows a)))])%list.
Proof.
  intros H Hak. apply getcol_lookup in Hak.
  destruct (reconcile_ok _ _ _ _ H) as (kv & sel & Hkv & Hd & Hsel & Hm).
  apply select_ok in Hsel. simpl in Hsel. rewrite Hak in Hsel.
  set (ms := match lookup measure_col (columns a) with
             | Some vs => vs | None => [] end) in Hsel.
  exists kv, ms. subst sel.
  assert (Hkd : getcol d "wikidata_join" = Ok kv).
  { subst d. apply getcol_lookup. apply lookup_set_column_same. }
  repeat split; auto.
  - subst d. reflexivity.
  - destruct (merge_left_ok _ _ _ _ _ Hm)
      as (lkv & rkv & Hl & Hr & _ & _ & Hm').
    rewrite Hkd in Hl. inversion Hl; subst lkv.
    unfold getcol in Hr. simpl in Hr. inversion Hr; subst rkv.
    rewrite Hm'. reflexivity.
Qed.

Lemma filter_all_false {A} (f : A -> bool) l :
  (forall x, In x l -> f x = false) -> filter f l = [].
Proof.
  induction l as [|x t IH]; simpl; intros H; auto.
  rewrite H by auto. apply IH. auto.
Qed.

Lemma matches_nil k kv n :
  matches k kv n = [] ->
  forall j, j < n -> key_eqb k (nth j kv VNaN) = false.
Proof.
  intros Hm j Hj. destruct (key_eqb k (nth j kv VNaN)) eqn:E; auto.
  assert (Hin : In j (matches k kv n)).
  { apply filter_In. split; auto. apply in_seq. lia. }
  rewrite Hm in Hin. contradiction.
Qed.

Lemma matches_in k kv n j :
  In j (matches k kv n) -> j < n /\ key_eqb k (nth j kv VNaN) = true.
Proof.
  intros Hin. apply filter_In in Hin as [Hj Hk]. apply in_seq in Hj.
  split; [lia|auto].
Qed.

Lemma left_part_values others sfx cs ps k :
  k < length ps ->
  map (fun cv => nth k (snd cv) VNaN)
    (map (fun '(c, vs) => (suffix_if others sfx c, map (left_cell vs) ps)) cs)
  = map (fun cv => nth (fst (nth k ps (0, None))) (snd cv) VNaN) cs.
Proof.
  intros Hk. rewrite map_map. apply map_ext. intros [c vs]. simpl.
  apply (nth_map_default (left_cell vs)); auto.
Qed.

Lemma set_column_absent c vs cs :
  lookup c cs = None -> set_column c vs cs = (cs ++ [(c, vs)])%list.
Proof.
  induction cs as [|[c' vs'] t IH]; simpl; intros H; auto.
  destruct (String.eqb c c'); [discriminate|]. f_equal. auto.
Qed.

Lemma getcol_det df c v1 v2 :
  getcol df c = Ok v1 -> getcol df c = Ok v2 -> v1 = v2.
Proof. intros H1 H2. rewrite H1 in H2. now inversion H2. Qed.

(** * C1: the left merge keeps every boundary row *)

Lemma map_flat_map {A B C} (f : B -> C) (g : A -> list B) l :
  map f (flat_map g l) = flat_map (fun x => map f (g x)) l.
Proof.
  induction l as [|x t IH]; simpl; auto. now rewrite map_app, IH.
Qed.

Lemma map_fst_merge_pairs kd ak nd na :
  map fst (merge_pairs kd ak nd na) = source_rows kd ak nd na.
Proof.
  rewrite merge_pairs_blocks, map_flat_map. unfold source_rows.
  apply flat_map_ext. intros i. unfold merge_block, contribution.
  destruct (matches (nth i kd VNaN) ak na) as [|j js]; [reflexivity|].
  rewrite map_map. simpl. f_equal. apply map_const.
Qed.

Lemma count_occ_repeat_same (i n : nat) :
  count_occ Nat.eq_dec (repeat i n) i = n.
Proof.
  induction n as [|n IH]; simpl; auto.
  destruct (Nat.eq_dec i i); [now rewrite IH|contradiction].
Qed.

Lemma count_flat_map_repeat (f : nat -> nat) l i :
  NoDup l -> In i l ->
  count_occ Nat.eq_dec (flat_map (fun j => repeat j (f j)) l) i = f i.
Proof.
  induction l as [|x t IH]; simpl; intros Hnd Hi; [contradiction|].
  inversion Hnd as [|? ? Hx Ht]; subst.
  rewrite count_occ_app. destruct (Nat.eq_dec x i) as [<-|Hne].
  - rewrite count_occ_repeat_same.
    assert (Hz : count_occ Nat.eq_dec (flat_map (fun j => repeat j (f j)) t) x = 0).
    { apply count_occ_not_In. intros Hin. apply in_flat_map in Hin.
      destruct Hin as (y & Hy & Hr). apply repeat_spec in Hr. subst y.
      contradiction. }
    lia.
  - destruct Hi as [Hi|Hi]; [contradiction|].
    assert (Hz : count_occ Nat.eq_dec (repeat x (f x)) i = 0).
    { apply count_occ_not_In. intros Hr. apply repeat_spec in Hr.
      congruence. }
    rewrite Hz, IH; auto.
Qed.

(** C1 (amended).  Whenever [reconcile] succeeds, each boundary row [i]
    contributes max(1, number of attribute rows whose key matches it)
    rows to the output ([source_rows] lists, for each output row, the
    boundary row it comes from): so no boundary row is dropped, a
    boundary row matched by a key present k >= 2 times is repeated k
    times, and every output row starts with the values of its boundary
    row.  The output has at least as many rows as the boundary frame,
    and exactly as many when the attribute keys are unique. *)
Theorem reconcile_left_join_length b a d m ak kd
  (H : reconcile b a = Ok (d, m)) (Hak : getcol a "wikidata" = Ok ak)
  (Hkd : getcol d "wikidata_join" = Ok kd) :
  nrows m = length (source_rows kd ak (nrows b) (nrows a)) /\
  (forall i, i < nrows b ->
     count_occ Nat.eq_dec (source_rows kd ak (nrows b) (nrows a)) i
     = contribution kd ak (nrows a) i) /\
  (forall k, k < nrows m ->
     firstn (length (columns d)) (row_values m k)
     = row_values d (nth k (source_rows kd ak (nrows b) (nrows a)) 0)) /\
  nrows b <= nrows m /\ (keys_unique ak (nrows a) -> nrows m = nrows b).
Proof.
  destruct (reconcile_parts _ _ _ _ _ H Hak)
    as (kd' & ms & Hkd' & Hms & Hnd & _ & Hm).
  pose proof (getcol_det _ _ _ _ Hkd Hkd') as <-.
  rewrite <- Hnd, <- map_fst_merge_pairs.
  set (ps := merge_pairs kd ak (nrows d) (nrows a)) in *.
  assert (Hlen : nrows m = length ps) by (subst m; reflexivity).
  split; [|split; [|split; [|split]]].
  - rewrite Hlen, length_map. reflexivity.
  - intros i Hi. unfold ps. rewrite map_fst_merge_pairs. unfold source_rows.
    apply count_flat_map_repeat; [apply seq_NoDup|apply in_seq; lia].
  - intros k Hk. rewrite Hlen in Hk. subst m. unfold row_values at 1.
    simpl columns. rewrite map_app, left_part_values by exact Hk.
    rewrite firstn_app, length_map, Nat.sub_diag, firstn_O, app_nil_r.
    rewrite firstn_all2 by (rewrite length_map; lia).
    replace (nth k (map fst ps) 0) with (fst (nth k ps (0, None)))
      by (symmetry; apply (map_nth fst ps (0, None) k)).
    reflexivity.
  - rewrite Hlen. apply merge_pairs_length_ge.
  - intros Hu. rewrite Hlen. unfold ps. rewrite merge_pairs_unique by auto.
    now rewrite length_map, length_seq.
Qed.

Lemma reconcile_left_join_length_witness :
  exists d m, reconcile bnd attrs_dup = Ok (d, m) /\
    nrows m = length (source_rows [VStr "Q1"; VStr "Q2"]
                        [VStr "Q1"; VStr "Q1"] (nrows bnd) (nrows attrs_dup)) /\
    count_occ Nat.eq_dec (source_rows [VStr "Q1"; VStr "Q2"]
                            [VStr "Q1"; VStr "Q1"] (nrows bnd) (nrows attrs_dup)) 0
    = contribution [VStr "Q1"; VStr "Q2"] [VStr "Q1"; VStr "Q1"]
        (nrows attrs_dup) 0.
Proof.
  eexists; eexists. split; [reflexivity|].
  destruct (reconcile_left_join_length bnd attrs_dup _ _
              [VStr "Q1"; VStr "Q1"] [VStr "Q1"; VStr "Q2"]
              eq_refl eq_refl eq_refl) as (H1 & H2 & _).
  split; [exact H1|]. apply H2. simpl. lia.
Defined.

(** C1 (counterexample).  With the key "Q1" twice among the attributes,
    the two-row boundary frame yields a three-row output: "Amman" is
    repeated. *)
Lemma reconcile_length_counterexample :
  exists d m, reconcile bnd attrs_dup = Ok (d, m) /\
    nrows bnd = 2 /\ nrows m = 3 /\
    lookup "name_en" (columns m)
      = Some [VStr "Amman"; VStr "Amman"; VStr "Irbid"].
Proof.
  eexists; eexists. split; [reflexivity|]. vm_compute. auto.
Qed.

(** * C5: unmatched boundary rows get NaN measures *)

(** C5.  A boundary row whose resolved key matches no attribute row
    appears in the output with its own values followed by NaN (pandas'
    missing marker, not 0) in both attached attribute columns; on the
    spec's scenario (Amman/Q1, Irbid/Q2 against one attribute row Q1 with
    rate 12.5) the attached rate column is [12.5; NaN]. *)
Theorem reconcile_unmatched_missing :
  (forall b a d m ak kd i,
     reconcile b a = Ok (d, m) ->
     getcol a "wikidata" = Ok ak ->
     getcol d "wikidata_join" = Ok kd ->
     i < nrows b ->
     (forall j, j < nrows a -> key_eqb (nth i kd VNaN) (nth j ak VNaN) = false) ->
     exists k, k < nrows m /\
       row_values m k = (row_values d i ++ [VNaN; VNaN])%list) /\
  (exists d m, reconcile bnd attrs = Ok (d, m) /\
     lookup "wikidata_join" (columns m) = Some [VStr "Q1"; VStr "Q2"] /\
     lookup measure_col (columns m) = Some [VNum (25 # 2); VNaN]).
Proof.
  split.
  - intros b a d m ak kd i H Hak Hkd Hi Hnone.
    destruct (reconcile_parts _ _ _ _ _ H Hak)
      as (kd' & ms & Hkd' & _ & Hnd & _ & Hm).
    pose proof (getcol_det _ _ _ _ Hkd Hkd') as <-.
    set (ps := merge_pairs kd ak (nrows d) (nrows a)) in Hm.
    assert (Hin : In (i, None) ps).
    { apply in_merge_pairs_unmatched; [lia|].
      apply filter_all_false. intros j Hj. apply in_seq in Hj.
      apply Hnone. lia. }
    destruct (In_nth ps (i, None) (0, None) Hin) as (k & Hk & Hnth).
    exists k. subst m. simpl. split; [exact Hk|].
    unfold row_values. simpl columns. rewrite map_app.
    rewrite left_part_values by exact Hk. rewrite Hnth. simpl.
    rewrite !(nth_map_default _ _ _ (0, None)) by exact Hk.
    rewrite Hnth. reflexivity.
  - eexists; eexists. split; [reflexivity|]. vm_compute. auto.
Qed.

Lemma reconcile_unmatched_missing_witness :
  exists d m, reconcile bnd attrs = Ok (d, m) /\
    exists k, k < nrows m /\
      row_values m k = (row_values d 1 ++ [VNaN; VNaN])%list.
Proof.
  eexists; eexists. split; [reflexivity|].
  eapply (proj1 reconcile_unmatched_missing bnd attrs _ _
            [VStr "Q1"] [VStr "Q1"; VStr "Q2"] 1).
  - reflexivity.
  - reflexivity.
  - reflexivity.
  - simpl. lia.
  - intros j Hj. simpl in Hj. destruct j; [reflexivity|lia].
Defined.

(** * C10: order and content of the merge with unique keys *)

(** C10 (amended).  With unique attribute keys, the output has one row
    per boundary row, in input order; row [i] holds the values of row [i]
    of the key-resolved boundary frame [d] (the input plus the
    [wikidata_join] column appended by lines 65-68) followed by the
    matched attribute row's [wikidata] and measure, or two NaN when
    nothing matches; boundary columns named like an attribute column
    (notably [wikidata]) are renamed with suffix "_x", and the attached
    attribute columns clashing with a boundary column get suffix "_y". *)
Theorem reconcile_order_content b a d m ak ms kd
  (H : reconcile b a = Ok (d, m))
  (Hak : getcol a "wikidata" = Ok ak)
  (Hms : getcol a measure_col = Ok ms)
  (Hkd : getcol d "wikidata_join" = Ok kd)
  (Hu : keys_unique ak (nrows a)) :
  nrows m = nrows b /\
  col_names m
    = (map (suffix_if ["wikidata"; measure_col] "_x") (col_names d)
       ++ map (suffix_if (col_names d) "_y") ["wikidata"; measure_col])%list /\
  (mem "wikidata_join" (col_names b) = false ->
   forall i, row_values d i = (row_values b i ++ [nth i kd VNaN])%list) /\
  (forall i, i < nrows b ->
     (row_values m i = (row_values d i ++ [VNaN; VNaN])%list /\
      forall j, j < nrows a ->
        key_eqb (nth i kd VNaN) (nth j ak VNaN) = false) \/
     (exists j, j < nrows a /\
        key_eqb (nth i kd VNaN) (nth j ak VNaN) = true /\
        row_values m i
          = (row_values d i ++ [nth j ak VNaN; nth j ms VNaN])%list)).
Proof.
  destruct (reconcile_parts _ _ _ _ _ H Hak)
    as (kd' & ms' & Hkd' & Hms' & Hnd & _ & Hm).
  pose proof (getcol_det _ _ _ _ Hkd Hkd') as <-.
  apply getcol_lookup in Hms. rewrite Hms in Hms'. subst ms'.
  rewrite merge_pairs_unique in Hm by exact Hu.
  set (ps := map _ (seq 0 (nrows d))) in Hm.
  assert (Hlen : length ps = nrows d)
    by (unfold ps; now rewrite length_map, length_seq).
  split; [|split; [|split]].
  - subst m. simpl. congruence.
  - subst m. unfold col_names. simpl columns. rewrite map_app, !map_map.
    f_equal. apply map_ext. now intros [c vs].
  - intros Hmem i.
    destruct (reconcile_ok _ _ _ _ H) as (kv & sel & Hkv & Hd & _ & _).
    assert (kv = kd).
    { apply (getcol_det d "wikidata_join"); auto. subst d.
      apply getcol_lookup, lookup_set_column_same. }
    subst kv d. unfold row_values, setcol. simpl columns.
    apply lookup_mem in Hmem. rewrite set_column_absent by exact Hmem.
    now rewrite map_app.
  - intros i Hi. rewrite <- Hnd in Hi.
    assert (Hk : i < length ps) by lia.
    assert (Hnth : nth i ps (0, None)
                   = (i, hd_error (matches (nth i kd VNaN) ak (nrows a)))).
    { unfold ps. rewrite (nth_map_default _ _ _ 0)
        by (now rewrite length_seq). now rewrite seq_nth. }
    subst m. unfold row_values. simpl columns. rewrite map_app.
    rewrite left_part_values by exact Hk. rewrite Hnth. simpl.
    rewrite !(nth_map_default _ _ _ (0, None)) by exact Hk.
    rewrite Hnth. unfold right_cell. simpl.
    destruct (matches (nth i kd VNaN) ak (nrows a)) as [|j js] eqn:Em;
      simpl.
    + left. split; [reflexivity|]. now apply matches_nil.
    + right. exists j.
      assert (Hj : In j (matches (nth i kd VNaN) ak (nrows a)))
        by (rewrite Em; now left).
      apply matches_in in Hj as [Hj Hkey]. auto.
Qed.

Lemma reconcile_order_content_witness :
  keys_unique [VStr "Q1"] (nrows attrs) /\
  exists d m, reconcile bnd attrs = Ok (d, m) /\
    nrows m = nrows bnd /\
    col_names m
      = (map (suffix_if ["wikidata"; measure_col] "_x") (col_names d)
         ++ map (suffix_if (col_names d) "_y") ["wikidata"; measure_col])%list.
Proof.
  assert (Hu : keys_unique [VStr "Q1"] (nrows attrs))
    by (intros j1 j2 H1 H2 _; simpl in *; lia).
  split; [exact Hu|].
  eexists; eexists. split; [reflexivity|].
  destruct (reconcile_order_content bnd attrs _ _ [VStr "Q1"]
              [VNum (25 # 2)] [VStr "Q1"; VStr "Q2"]
              eq_refl eq_refl eq_refl eq_refl Hu) as (H1 & H2 & _).
  split; assumption.
Defined.

(** C10 (counterexample).  On the spec's scenario the boundary column
    [wikidata] is not carried over under its name: the merge renames it
    [wikidata_x] because the attribute table has a [wikidata] column. *)
Lemma reconcile_content_counterexample :
  exists d m, reconcile bnd attrs = Ok (d, m) /\
    In "wikidata" (col_names bnd) /\ ~ In "wikidata" (col_names m) /\
    col_names m = ["name_en"; "wikidata_x"; "geometry"; "wikidata_join";
                   "wikidata_y"; measure_col].
Proof.
  eexists; eexists. split; [reflexivity|].
  vm_compute. split; [auto 6|split; [|reflexivity]].
  intros Hin. repeat (destruct Hin as [Hin|Hin]; [discriminate|]).
  exact Hin.
Qed.

(** * C2, C3: join-key resolution *)

Lemma lookup_some_mem c cs vs :
  lookup c cs = Some vs -> mem c (map fst cs) = true.
Proof.
  intros H. destruct (mem c (map fst cs)) eqn:E; auto.
  apply lookup_mem in E. congruence.
Qed.

(** C2 (amended).  Lines 65-68 copy the long-form column into
    [wikidata_join] whenever it is present, whether or not [wikidata] is
    also present; when the long-form column is absent they copy
    [wikidata]. *)
Theorem resolve_join_key df vs :
  (lookup long_wikidata_col (columns df) = Some vs ->
   resolve_join_col df = long_wikidata_col /\
   resolve_step df = Ok (setcol df "wikidata_join" vs)) /\
  (lookup long_wikidata_col (columns df) = None ->
   lookup "wikidata" (columns df) = Some vs ->
   resolve_join_col df = "wikidata" /\
   resolve_step df = Ok (setcol df "wikidata_join" vs)).
Proof.
  unfold resolve_step, resolve_join_col, col_names, getcol. split.
  - intros H. rewrite (lookup_some_mem _ _ _ H), H. auto.
  - intros H1 H2. apply lookup_mem in H1. rewrite H1, H2. auto.
Qed.

Lemma resolve_join_key_witness :
  (resolve_join_col bnd_both = long_wikidata_col /\
   resolve_step bnd_both = Ok (setcol bnd_both "wikidata_join" [VStr "Q9"])) /\
  (resolve_join_col bnd = "wikidata" /\
   resolve_step bnd = Ok (setcol bnd "wikidata_join" [VStr "Q1"; VStr "Q2"])).
Proof.
  split.
  - apply (proj1 (resolve_join_key bnd_both [VStr "Q9"])). reflexivity.
  - apply (proj2 (resolve_join_key bnd [VStr "Q1"; VStr "Q2"]));
      reflexivity.
Defined.

(** C2 (counterexample).  With both [wikidata] and the long-form column
    present, the canonical name is not the one used: the key values come
    from the long-form column. *)
Lemma resolve_join_key_counterexample :
  mem "wikidata" (col_names bnd_both) = true /\
  resolve_join_col bnd_both <> "wikidata" /\
  exists d, resolve_step bnd_both = Ok d /\
    lookup "wikidata_join" (columns d) = Some [VStr "Q9"] /\
    lookup "wikidata" (columns d) = Some [VStr "Q1"].
Proof.
  split; [reflexivity|]. split.
  - vm_compute. discriminate.
  - eexists. split; [reflexivity|]. vm_compute. auto.
Qed.

(** C3.  When neither the long-form column nor [wikidata] is present,
    lines 65-68 raise (pandas' [KeyError] on the missing column
    [wikidata]) and the reconciliation aborts: [reconcile] and the whole
    of Example 2 fail with that error. *)
Theorem resolve_missing_key df
  (H1 : lookup long_wikidata_col (columns df) = None)
  (H2 : lookup "wikidata" (columns df) = None) :
  resolve_step df = Err (KeyError ["wikidata"]) /\
  (forall a, reconcile df a = Err (KeyError ["wikidata"])) /\
  (forall e, districts e = df -> example2 e = Err (KeyError ["wikidata"])).
Proof.
  assert (Hr : resolve_step df = Err (KeyError ["wikidata"])).
  { unfold resolve_step, resolve_join_col, col_names, getcol.
    apply lookup_mem in H1. rewrite H1, H2. reflexivity. }
  split; [exact Hr|split].
  - intros a. unfold reconcile. now rewrite Hr.
  - intros e He. unfold example2, reconcile. rewrite He, Hr. reflexivity.
Qed.

Lemma resolve_missing_key_witness :
  resolve_step bnd_none = Err (KeyError ["wikidata"]) /\
  reconcile bnd_none attrs = Err (KeyError ["wikidata"]).
Proof.
  destruct (resolve_missing_key bnd_none eq_refl eq_refl) as (H & Hr & _).
  split; [exact H|apply Hr].
Defined.

(** * C4: duplicated attribute keys *)


Lemma select_key_measure a ak ms :
  getcol a "wikidata" = Ok ak -> getcol a measure_col = Ok ms ->
  select a ["wikidata"; measure_col]
  = Ok (mkFrame (crs a) (nrows a) [("wikidata", ak); (measure_col, ms)]).
Proof.
  intros Hak Hms. apply getcol_lookup in Hak, Hms.
  unfold select, col_names. simpl filter.
  rewrite (lookup_some_mem _ _ _ Hak), (lookup_some_mem _ _ _ Hms).
  simpl. now rewrite Hak, Hms.
Qed.




(** * C9: determinism *)

(** C9.  Key resolution and merge are a function of their inputs: equal
    boundary and attribute frames give equal results, including the
    mutated boundary frame, the merged rows and their order. *)
Theorem reconcile_deterministic b1 b2 a1 a2
  (Hb : b1 = b2) (Ha : a1 = a2) :
  reconcile b1 a1 = reconcile b2 a2 /\
  forall e1 e2, districts e1 = b1 -> districts e2 = b2 ->
    districts_csv e1 = a1 -> districts_csv e2 = a2 ->
    districts_utm e1 = districts_utm e2 ->
    example2 e1 = example2 e2.
Proof.
  subst. split; [reflexivity|].
  intros e1 e2 H1 H2 H3 H4 H5. unfold example2.
  rewrite H1, H2, H3, H4, H5. reflexivity.
Qed.

Lemma reconcile_deterministic_witness :
  reconcile bnd attrs = reconcile bnd attrs.
Proof.
  exact (proj1 (reconcile_deterministic bnd bnd attrs attrs eq_refl eq_refl)).
Defined.

(** * Lemmas on Example 4 *)

Definition area_km2_of (area : geom -> Q) (v : value) : result value :=
  vdiv (area_cell area v) (VNum 1000000%Q).

Definition utm_frame (reproject : string -> string -> geom -> geom)
  (df : frame) (src : string) (g : list value) : frame :=
  mkFrame (Some utm36n) (nrows df)
    (set_column "geometry" (map (reproj_cell reproject src utm36n) g)
       (columns df)).

Lemma example4_ok reproject area df u :
  example4 reproject area df = Ok u ->
  exists src g a,
    crs df = Some src /\
    lookup "geometry" (columns df) = Some g /\
    mapM (area_km2_of area) (map (reproj_cell reproject src utm36n) g) = Ok a /\
    let utm := setcol (utm_frame reproject df src g) "area_km2" a in
    ((mem pop_col (col_names df) = false /\ u = utm) \/
     (exists p dd,
        lookup pop_col (columns df) = Some p /\
        mapM (fun xy => vdiv (fst xy) (snd xy)) (combine p a) = Ok dd /\
        u = setcol (setcol utm "population" p) "pop_density_per_km2" dd)).
Proof.
  unfold example4, to_crs.
  destruct (crs df) as [src|] eqn:Hc; [|discriminate].
  unfold getcol at 1.
  destruct (lookup "geometry" (columns df)) as [g|] eqn:Hg; [|discriminate].
  cbn [bind]. unfold getcol at 1. simpl columns.
  rewrite lookup_set_column_same. cbn [bind].
  fold (area_km2_of area).
  destruct (mapM (area_km2_of area) _) as [a|e] eqn:Ha; [|discriminate].
  cbn [bind].
  destruct (mem pop_col (col_names df)) eqn:Hmem.
  - unfold getcol.
    destruct (lookup pop_col (columns df)) as [p|] eqn:Hp; [|discriminate].
    cbn [bind]. simpl columns.
    rewrite lookup_set_column_same.
    rewrite lookup_set_column_other by reflexivity.
    rewrite lookup_set_column_same. cbn [bind].
    destruct (mapM _ (combine p a)) as [dd|e] eqn:Hd; [|discriminate].
    intros H. inversion H. exists src, g, a. repeat split; auto.
    right. exists p, dd. auto.
  - intros H. inversion H. exists src, g, a. repeat split; auto.
Qed.

Lemma nth_combine_lt {A B} (l : list A) (l' : list B) i x y :
  i < length (combine l l') ->
  nth i (combine l l') (x, y) = (nth i l x, nth i l' y).
Proof.
  revert l' i. induction l as [|h t IH]; intros [|h' t'] i Hi;
    simpl in *; try lia.
  destruct i; auto. apply IH. lia.
Qed.

Lemma vdiv_nan_left x y : vdiv VNaN x = Ok y -> y = VNaN.
Proof. destruct x; simpl; intros H; inversion H; auto. Qed.

(** * C6: a missing population gives a missing density *)

(** C6.  Dividing NaN by any numeric area (finite, zero, infinite or
    NaN) gives NaN, never 0 nor an infinity; and in Example 4 every
    district whose population cell is NaN gets a NaN density. *)
Theorem density_missing_propagates :
  (forall q, vdiv VNaN (VNum q) = Ok VNaN) /\
  (forall n, vdiv VNaN (VInf n) = Ok VNaN) /\
  vdiv VNaN VNaN = Ok VNaN /\
  (forall x y, vdiv VNaN x = Ok y -> y = VNaN) /\
  (forall reproject area df u p,
     example4 reproject area df = Ok u ->
     lookup pop_col (columns df) = Some p ->
     exists dd, lookup "pop_density_per_km2" (columns u) = Some dd /\
       forall i, nth i p VNaN = VNaN -> nth i dd VNaN = VNaN).
Proof.
  split; [reflexivity|]. split; [reflexivity|]. split; [reflexivity|].
  split; [exact vdiv_nan_left|].
  intros reproject area df u p H Hp.
  destruct (example4_ok _ _ _ _ H) as (src & g & a & _ & _ & _ & Hcase).
  destruct Hcase as [[Hmem _] | (p' & dd & Hp' & Hd & Hu)].
  - apply lookup_some_mem in Hp. unfold col_names in Hmem. congruence.
  - rewrite Hp in Hp'. inversion Hp'; subst p'.
    exists dd. split.
    + subst u. apply lookup_set_column_same.
    + intros i Hpi. apply mapM_Forall2 in Hd.
      destruct (Nat.lt_ge_cases i (length (combine p a))) as [Hi|Hi].
      * pose proof (Forall2_nth _ _ _ (VNaN, VNaN) VNaN i Hd Hi) as Hx.
        simpl in Hx. rewrite nth_combine_lt in Hx by exact Hi.
        simpl in Hx. rewrite Hpi in Hx. exact (vdiv_nan_left _ _ Hx).
      * apply nth_overflow. apply Forall2_length in Hd. lia.
Qed.

(** A reprojection that scales degrees to metres, and the shoelace area,
    used to run Example 4 on the sample districts. *)
Definition scale_reproject (src dst : string) (g : geom) : geom :=
  map (fun p => (fst p * 100000, snd p * 100000)%Q) g.

Fixpoint shoelace2 (first : Q * Q) (g : geom) : Q :=
  match g with
  | [] => 0
  | [p] => (fst p * snd first - fst first * snd p)%Q
  | p :: ((q :: _) as t) => (fst p * snd q - fst q * snd p + shoelace2 first t)%Q
  end.

Definition shoelace (g : geom) : Q :=
  match g with [] => 0%Q | p :: _ => (Qabs (shoelace2 p g) / 2)%Q end.

Definition bnd_pop : frame := setcol bnd pop_col [VNaN; VNum 250000%Q].

Lemma density_missing_propagates_witness :
  exists u, example4 scale_reproject shoelace bnd_pop = Ok u /\
    exists dd, lookup "pop_density_per_km2" (columns u) = Some dd /\
      (nth 0 [VNaN; VNum 250000%Q] VNaN = VNaN -> nth 0 dd VNaN = VNaN).
Proof.
  eexists. split; [reflexivity|].
  destruct (proj2 (proj2 (proj2 (proj2 density_missing_propagates)))
              scale_reproject shoelace bnd_pop _ [VNaN; VNum 250000%Q]
              eq_refl eq_refl) as (dd & Hdd & Hn).
  exists dd. split; [exact Hdd|]. apply Hn.
Defined.

(** * C7: area only on the reprojected geometry *)

(** C7.  Example 4 never measures the native geometry: it fails on a
    frame without a CRS, and when it succeeds the frame carrying
    [area_km2] is in EPSG:32636 and every area is the area of the
    geometry reprojected from the source CRS to EPSG:32636. *)
Theorem area_on_projected reproject area df :
  (crs df = None ->
   example4 reproject area df
   = Err (ValueError "Cannot transform naive geometries.")) /\
  (forall u, example4 reproject area df = Ok u ->
   exists src g a,
     crs df = Some src /\ crs u = Some utm36n /\
     lookup "geometry" (columns df) = Some g /\
     lookup "area_km2" (columns u) = Some a /\
     Forall2 (fun gv av => vdiv (area_cell area gv) (VNum 1000000%Q) = Ok av)
       (map (reproj_cell reproject src utm36n) g) a).
Proof.
  split.
  - intros Hc. unfold example4, to_crs. now rewrite Hc.
  - intros u H.
    destruct (example4_ok _ _ _ _ H) as (src & g & a & Hc & Hg & Ha & Hcase).
    exists src, g, a. apply mapM_Forall2 in Ha.
    destruct Hcase as [[_ Hu] | (p & dd & _ & _ & Hu)]; subst u;
      repeat split; auto; simpl columns.
    + apply lookup_set_column_same.
    + rewrite !lookup_set_column_other by reflexivity.
      apply lookup_set_column_same.
Qed.

Lemma area_on_projected_witness :
  example4 scale_reproject shoelace (mkFrame None 2 (columns bnd))
    = Err (ValueError "Cannot transform naive geometries.") /\
  exists u, example4 scale_reproject shoelace bnd_pop = Ok u /\
    exists src g a,
      crs bnd_pop = Some src /\ crs u = Some utm36n /\
      lookup "geometry" (columns bnd_pop) = Some g /\
      lookup "area_km2" (columns u) = Some a /\
      Forall2 (fun gv av =>
                 vdiv (area_cell shoelace gv) (VNum 1000000%Q) = Ok av)
        (map (reproj_cell scale_reproject src utm36n) g) a.
Proof.
  split.
  - apply (proj1 (area_on_projected scale_reproject shoelace
                    (mkFrame None 2 (columns bnd)))). reflexivity.
  - eexists. split; [reflexivity|].
    apply (proj2 (area_on_projected scale_reproject shoelace bnd_pop)).
    reflexivity.
Defined.

(** * C8: what the script writes back into [districts] *)

Definition env0 : env := mkEnv bnd attrs None None.

(** C8 (amended).  Example 2 writes the column [wikidata_join] into the
    boundary frame [districts] itself (lines 65-68); every other column,
    the geometry, the CRS, the row count and the attribute frame are left
    unchanged.  Example 4 leaves [districts], [districts_csv] and
    [districts_merged] unchanged: area, population and density go only
    into the reprojected copy [districts_utm]. *)
Theorem example_side_effects reproject area e :
  (forall e', example2 e = Ok e' ->
   exists kv,
     districts e' = setcol (districts e) "wikidata_join" kv /\
     crs (districts e') = crs (districts e) /\
     nrows (districts e') = nrows (districts e) /\
     (forall c, String.eqb c "wikidata_join" = false ->
        lookup c (columns (districts e')) = lookup c (columns (districts e))) /\
     districts_csv e' = districts_csv e) /\
  (forall e', example4_step reproject area e = Ok e' ->
   districts e' = districts e /\ districts_csv e' = districts_csv e /\
   districts_merged e' = districts_merged e).
Proof.
  split.
  - intros e' H. unfold example2 in H.
    destruct (reconcile (districts e) (districts_csv e)) as [[d m]|err]
      eqn:Hr; [|discriminate].
    cbn [bind] in H. inversion H; subst e'. simpl.
    destruct (reconcile_ok _ _ _ _ Hr) as (kv & sel & _ & Hd & _ & _).
    exists kv. subst d. repeat split; auto.
    intros c Hc. simpl. now apply lookup_set_column_other.
  - intros e' H. unfold example4_step in H.
    destruct (example4 reproject area (districts e)) as [u|err];
      [|discriminate].
    cbn [bind] in H. inversion H. auto.
Qed.

Lemma example_side_effects_witness :
  (exists e', example2 env0 = Ok e' /\
     exists kv, districts e' = setcol (districts env0) "wikidata_join" kv) /\
  (exists e', example4_step scale_reproject shoelace env0 = Ok e' /\
     districts e' = districts env0).
Proof.
  split.
  - eexists. split; [reflexivity|].
    destruct (proj1 (example_side_effects scale_reproject shoelace env0)
                _ eq_refl) as (kv & Hkv & _).
    exists kv. exact Hkv.
  - eexists. split; [reflexivity|].
    apply (proj2 (example_side_effects scale_reproject shoelace env0)
             _ eq_refl).
Defined.

(** C8 (counterexample).  After Example 2 the boundary frame [districts]
    is not the loaded one: it has gained the column [wikidata_join]. *)
Lemma example2_mutates_counterexample :
  exists e', example2 env0 = Ok e' /\
    districts e' <> districts env0 /\
    col_names (districts e')
      = ["name_en"; "wikidata"; "geometry"; "wikidata_join"].
Proof.
  eexists. split; [reflexivity|]. split; [|reflexivity].
  intros H. apply (f_equal col_names) in H. vm_compute in H. discriminate.
Qed.

(** * Further properties of Examples 2 and 4 *)

Lemma set_column_names c vs cs vs0 :
  lookup c cs = Some vs0 -> map fst (set_column c vs cs) = map fst cs.
Proof.
  induction cs as [|[c' vs'] t IH]; simpl; intros H; [discriminate|].
  destruct (String.eqb c c') eqn:E; simpl.
  - apply String.eqb_eq in E. now subst.
  - f_equal. auto.
Qed.

(** [to_crs] changes only the CRS and the geometry column: the row count,
    the column names and order, and every other column are kept; the
    geometry column holds the reprojected geometries. *)
Theorem to_crs_preserves reproject df dst u
  (H : to_crs reproject df dst = Ok u) :
  exists src g,
    crs df = Some src /\ crs u = Some dst /\ nrows u = nrows df /\
    col_names u = col_names df /\
    lookup "geometry" (columns df) = Some g /\
    lookup "geometry" (columns u)
      = Some (map (reproj_cell reproject src dst) g) /\
    (forall c, String.eqb c "geometry" = false ->
       lookup c (columns u) = lookup c (columns df)).
Proof.
  unfold to_crs in H. destruct (crs df) as [src|] eqn:Hc; [|discriminate].
  unfold getcol in H.
  destruct (lookup "geometry" (columns df)) as [g|] eqn:Hg; [|discriminate].
  cbn [bind] in H. inversion H; subst u. clear H.
  exists src, g. simpl. repeat split; auto.
  - unfold col_names. simpl. eapply set_column_names; eauto.
  - apply lookup_set_column_same.
  - intros c Hc'. now apply lookup_set_column_other.
Qed.

Lemma to_crs_preserves_witness :
  exists u, to_crs scale_reproject bnd utm36n = Ok u /\
    col_names u = col_names bnd /\ nrows u = nrows bnd.
Proof.
  eexists. split; [reflexivity|].
  destruct (to_crs_preserves scale_reproject bnd utm36n _ eq_refl)
    as (src & g & _ & _ & Hn & Hcn & _). auto.
Defined.

(** Example 4 always attaches [area_km2] (one value per geometry), keeps
    the row count, and attaches [population] and [pop_density_per_km2]
    exactly when the boundary frame has the long population column
    (line 138); the [population] column is that column unchanged. *)
Theorem example4_columns reproject area df u
  (H : example4 reproject area df = Ok u)
  (Hnod : lookup "pop_density_per_km2" (columns df) = None) :
  nrows u = nrows df /\ crs u = Some utm36n /\
  (exists g a, lookup "geometry" (columns df) = Some g /\
     lookup "area_km2" (columns u) = Some a /\ length a = length g) /\
  (mem pop_col (col_names df) = true <->
   lookup "pop_density_per_km2" (columns u) <> None) /\
  (forall p, lookup pop_col (columns df) = Some p ->
   lookup "population" (columns u) = Some p).
Proof.
  destruct (example4_ok _ _ _ _ H) as (src & g & a & Hc & Hg & Ha & Hcase).
  pose proof (Forall2_length (mapM_Forall2 _ _ _ Ha)) as Hlen.
  rewrite length_map in Hlen.
  assert (Hutm : lookup "pop_density_per_km2"
                   (columns (setcol (utm_frame reproject df src g) "area_km2" a))
                 = None).
  { simpl. rewrite !lookup_set_column_other by reflexivity. exact Hnod. }
  destruct Hcase as [[Hmem Hu] | (p & dd & Hp & Hd & Hu)]; subst u.
  - split; [reflexivity|]. split; [reflexivity|]. split.
    + exists g, a. simpl. rewrite lookup_set_column_same.
      split; [exact Hg|]. split; [reflexivity|]. lia.
    + split.
      * rewrite Hmem, Hutm. split; [discriminate|]. intros N.
        exfalso. now apply N.
      * intros p Hp. apply lookup_some_mem in Hp.
        unfold col_names in Hmem. congruence.
  - split; [reflexivity|]. split; [reflexivity|]. split.
    + exists g, a. simpl.
      rewrite !lookup_set_column_other by reflexivity.
      rewrite lookup_set_column_same. split; [exact Hg|].
      split; [reflexivity|]. lia.
    + split.
      * simpl. rewrite lookup_set_column_same.
        unfold col_names. rewrite (lookup_some_mem _ _ _ Hp).
        split; [discriminate|auto].
      * intros p' Hp'. rewrite Hp in Hp'. inversion Hp'; subst p'.
        simpl. rewrite lookup_set_column_other by reflexivity.
        apply lookup_set_column_same.
Qed.

Lemma example4_columns_witness :
  exists u, example4 scale_reproject shoelace bnd_pop = Ok u /\
    nrows u = nrows bnd_pop /\
    lookup "pop_density_per_km2" (columns u) <> None.
Proof.
  eexists. split; [reflexivity|].
  destruct (example4_columns scale_reproject shoelace bnd_pop _
              eq_refl eq_refl) as (Hn & _ & _ & [H1 _] & _).
  split; [exact Hn|]. apply H1. reflexivity.
Defined.

(** A district with a positive population and a zero area (a degenerate
    projected geometry) gets density +inf; with a zero population and a
    zero area it gets NaN: Example 4 does not guard the division. *)
Theorem density_zero_area reproject area df u p a dd i q z
  (H : example4 reproject area df = Ok u)
  (Hp : lookup pop_col (columns df) = Some p)
  (Ha : lookup "area_km2" (columns u) = Some a)
  (Hd : lookup "pop_density_per_km2" (columns u) = Some dd)
  (Hpi : nth i p VNaN = VNum q)
  (Hai : nth i a VNaN = VNum z) (Hz : (z == 0)%Q) :
  ((0 < q)%Q -> nth i dd VNaN = VInf false) /\
  ((q == 0)%Q -> nth i dd VNaN = VNaN).
Proof.
  destruct (example4_ok _ _ _ _ H) as (src & g & a' & _ & _ & _ & Hcase).
  destruct Hcase as [[Hmem _] | (p' & dd' & Hp' & Hdd & Hu)].
  - apply lookup_some_mem in Hp. unfold col_names in Hmem. congruence.
  - rewrite Hp in Hp'. inversion Hp'; subst p'. subst u.
    simpl in Ha, Hd. rewrite lookup_set_column_same in Hd.
    inversion Hd; subst dd'.
    rewrite !lookup_set_column_other in Ha by reflexivity.
    rewrite lookup_set_column_same in Ha. inversion Ha; subst a'.
    apply mapM_Forall2 in Hdd.
    assert (Hip : i < length p).
    { destruct (Nat.lt_ge_cases i (length p)); auto.
      rewrite nth_overflow in Hpi by auto. discriminate. }
    assert (Hia : i < length a).
    { destruct (Nat.lt_ge_cases i (length a)); auto.
      rewrite nth_overflow in Hai by auto. discriminate. }
    assert (Hi : i < length (combine p a)) by (rewrite length_combine; lia).
    pose proof (Forall2_nth _ _ _ (VNaN, VNaN) VNaN i Hdd Hi) as Hx.
    simpl in Hx. rewrite nth_combine_lt in Hx by exact Hi. simpl in Hx.
    rewrite Hpi, Hai in Hx. simpl in Hx.
    apply Qeq_bool_iff in Hz. rewrite Hz in Hx.
    split; intros Hq.
    + destruct (Qeq_bool q 0) eqn:E.
      * apply Qeq_bool_iff in E. rewrite E in Hq. discriminate.
      * assert (Qle_bool 0 q = true) by (apply Qle_bool_iff, Qlt_le_weak, Hq).
        rewrite H0 in Hx. inversion Hx; auto.
    + apply Qeq_bool_iff in Hq. rewrite Hq in Hx. inversion Hx; auto.
Qed.

Definition bnd_flat : frame :=
  setcol (setcol bnd pop_col [VNum 10%Q; VNum 0%Q]) "geometry"
    [VGeom [(0,0)]%Q; VGeom [(0,0)]%Q].

Lemma density_zero_area_witness :
  exists u a dd, example4 scale_reproject shoelace bnd_flat = Ok u /\
    lookup "area_km2" (columns u) = Some a /\
    lookup "pop_density_per_km2" (columns u) = Some dd /\
    nth 0 dd VNaN = VInf false /\ nth 1 dd VNaN = VNaN.
Proof.
  do 3 eexists. split; [reflexivity|]. split; [reflexivity|].
  split; [reflexivity|]. split.
  - apply (proj1 (density_zero_area scale_reproject shoelace bnd_flat _
                    [VNum 10%Q; VNum 0%Q] _ _ 0 10%Q
                    (shoelace (scale_reproject "EPSG:4326" utm36n [(0,0)%Q])
                     / 1000000)%Q
                    eq_refl eq_refl eq_refl eq_refl eq_refl eq_refl
                    ltac:(vm_compute; reflexivity))).
    reflexivity.
  - apply (proj2 (density_zero_area scale_reproject shoelace bnd_flat _
                    [VNum 10%Q; VNum 0%Q] _ _ 1 0%Q
                    (shoelace (scale_reproject "EPSG:4326" utm36n [(0,0)%Q])
                     / 1000000)%Q
                    eq_refl eq_refl eq_refl eq_refl eq_refl eq_refl
                    ltac:(vm_compute; reflexivity))).
    reflexivity.
Defined.

(** Example 2 needs both attribute columns: once the key is resolved, an
    attribute table lacking [wikidata] or the measure makes [reconcile]
    raise a [KeyError] listing the absent ones. *)
Theorem reconcile_missing_attribute_columns b a kv missing
  (Hkv : getcol b (resolve_join_col b) = Ok kv)
  (Hm : filter (fun c => negb (mem c (col_names a)))
          ["wikidata"; measure_col] = missing)
  (Hne : missing <> []) :
  reconcile b a = Err (KeyError missing).
Proof.
  unfold reconcile, resolve_step. rewrite Hkv. cbn [bind].
  unfold select. rewrite Hm. destruct missing; [congruence|reflexivity].
Qed.

Lemma reconcile_missing_attribute_columns_witness :
  reconcile bnd (mkFrame None 1 [("wikidata", [VStr "Q1"])])
  = Err (KeyError [measure_col]).
Proof.
  apply (reconcile_missing_attribute_columns _ _ [VStr "Q1"; VStr "Q2"]);
    [reflexivity|reflexivity|discriminate].
Defined.

(** * Example 6: filter districts by governorate (lines 182-185) *)

(** [series == s] on one cell: only the string [s] compares equal. *)
Definition eq_str_cell (s : string) (v : value) : bool :=
  match v with VStr t => String.eqb t s | _ => false end.

(** [df[mask]]: the rows whose mask entry is true, in order. *)
Definition mask_rows (df : frame) (mask : list bool) : frame :=
  let keep := filter (fun i => nth i mask false) (seq 0 (nrows df)) in
  mkFrame (crs df) (length keep)
    (map (fun '(c, vs) => (c, map (fun i => nth i vs VNaN) keep)) (columns df)).

(** Lines 183-185: [amman_districts] and [amman_districts['name_en']]. *)
Definition example6 (districts : frame) : result (frame * list value) :=
  n2 <- getcol districts "name_en_2" ;;
  let amman_districts := mask_rows districts (map (eq_str_cell "Amman") n2) in
  names <- getcol amman_districts "name_en" ;;
  Ok (amman_districts, names).

(** The indices of the rows whose [name_en_2] cell is "Amman". *)
Definition amman_rows (df : frame) (n2 : list value) : list nat :=
  filter (fun i => eq_str_cell "Amman" (nth i n2 VNaN)) (seq 0 (nrows df)).

Lemma lookup_map_cols f c cs :
  lookup c (map (fun '(c', vs) => (c', f vs)) cs) = option_map f (lookup c cs).
Proof.
  induction cs as [|[c' vs] t IH]; simpl; auto.
  destruct (String.eqb c c'); auto.
Qed.

Lemma nth_map_eq_str s l i :
  nth i (map (eq_str_cell s) l) false = eq_str_cell s (nth i l VNaN).
Proof.
  destruct (Nat.lt_ge_cases i (length l)) as [Hi|Hi].
  - now apply nth_map_default.
  - rewrite !nth_overflow by (rewrite ?length_map; lia). reflexivity.
Qed.

Lemma mask_rows_amman df n2 :
  mask_rows df (map (eq_str_cell "Amman") n2)
  = mkFrame (crs df) (length (amman_rows df n2))
      (map (fun '(c, vs) => (c, map (fun i => nth i vs VNaN) (amman_rows df n2)))
         (columns df)).
Proof.
  unfold mask_rows, amman_rows.
  rewrite (filter_ext _ (fun i => eq_str_cell "Amman" (nth i n2 VNaN)))
    by (intros; apply nth_map_eq_str).
  reflexivity.
Qed.

(** Example 6 keeps exactly the districts whose [name_en_2] is the string
    "Amman", in their original order and with all their columns: the
    result has one row per such district, each of its columns (same
    names, same order, geometry included) holds the cells of those
    districts in that column, its [name_en_2] column is all "Amman", and
    the printed names are those districts' [name_en]. *)
Theorem example6_filter d am names n2 ne
  (H : example6 d = Ok (am, names))
  (Hn2 : lookup "name_en_2" (columns d) = Some n2)
  (Hne : lookup "name_en" (columns d) = Some ne) :
  nrows am = length (amman_rows d n2) /\
  columns am
  = map (fun '(c, vs) => (c, map (fun i => nth i vs VNaN) (amman_rows d n2)))
      (columns d) /\
  (exists vs, lookup "name_en_2" (columns am) = Some vs /\
     Forall (fun v => v = VStr "Amman") vs) /\
  names = map (fun i => nth i ne VNaN) (amman_rows d n2) /\
  (forall i, In i (amman_rows d n2) <->
     i < nrows d /\ nth i n2 VNaN = VStr "Amman").
Proof.
  unfold example6, getcol at 1 in H. rewrite Hn2 in H. cbn [bind] in H.
  rewrite mask_rows_amman in H. unfold getcol in H. simpl columns in H.
  rewrite (lookup_map_cols (fun vs => map (fun i => nth i vs VNaN) _)) in H.
  rewrite Hne in H. simpl in H. inversion H; subst am names. clear H.
  assert (Hin : forall i, In i (amman_rows d n2) <->
                 i < nrows d /\ nth i n2 VNaN = VStr "Amman").
  { intros i. unfold amman_rows. rewrite filter_In, in_seq.
    split.
    - intros [Hi He]. split; [lia|].
      destruct (nth i n2 VNaN); simpl in He; try discriminate.
      apply String.eqb_eq in He. now subst.
    - intros [Hi He]. rewrite He. split; [lia|reflexivity]. }
  split; [reflexivity|]. split.
  - reflexivity.
  - split; [|split; [reflexivity|exact Hin]].
    eexists. simpl. rewrite lookup_map_cols, Hn2. split; [reflexivity|].
    apply Forall_forall. intros v Hv. apply in_map_iff in Hv as (i & <- & Hi).
    apply Hin in Hi. tauto.
Qed.

Definition bnd_gov : frame :=
  setcol bnd "name_en_2" [VStr "Amman"; VStr "Irbid"].

Lemma example6_filter_witness :
  exists am names, example6 bnd_gov = Ok (am, names) /\
    nrows am = 1 /\ names = [VStr "Amman"].
Proof.
  do 2 eexists. split; [reflexivity|].
  destruct (example6_filter bnd_gov _ _ [VStr "Amman"; VStr "Irbid"]
              [VStr "Amman"; VStr "Irbid"] eq_refl eq_refl eq_refl)
    as (Hn & _ & _ & Hnames & _).
  rewrite Hn, Hnames. split; reflexivity.
Defined.


(** * Example 3: spatial join of districts to governorates (lines 111-121) *)

(** The row pairing of a left join on a row predicate: left rows in
    order, each with every right row satisfying the predicate, in right
    order, or with none. *)
Definition join_pairs (p : nat -> nat -> bool) (nl nr : nat)
  : list (nat * option nat) :=
  flat_map (fun i =>
    match filter (p i) (seq 0 nr) with
    | [] => [(i, None)]
    | js => map (fun j => (i, Some j)) js
    end) (seq 0 nl).

(** The [within] predicate on geometry cells; a missing geometry
    satisfies no predicate. *)
Definition within_cell (within : geom -> geom -> bool) (a b : value) : bool :=
  match a, b with VGeom x, VGeom y => within x y | _, _ => false end.

Definition index_cell (p : nat * option nat) : value :=
  match snd p with Some j => VNum (inject_Z (Z.of_nat j)) | None => VNaN end.

(** [gpd.sjoin(l, r, how='left', predicate='within')]: the left columns
    (overlapping non-geometry names suffixed "_left"), then
    [index_right] (the right row label, a RangeIndex here), then the
    right columns other than the geometry (overlapping names suffixed
    "_right"). *)
Definition sjoin_left (within : geom -> geom -> bool) (l r : frame)
  : result frame :=
  lg <- getcol l "geometry" ;;
  rg <- getcol r "geometry" ;;
  let ps := join_pairs (fun i j => within_cell within (nth i lg VNaN)
                                                     (nth j rg VNaN))
                       (nrows l) (nrows r) in
  let rcols := filter (fun cv => negb (String.eqb (fst cv) "geometry"))
                      (columns r) in
  let lnames := filter (fun c => negb (String.eqb c "geometry")) (col_names l) in
  Ok (mkFrame (crs l) (length ps)
        (map (fun '(c, vs) =>
                (if String.eqb c "geometry" then c
                 else suffix_if (map fst rcols) "_left" c,
                 map (left_cell vs) ps)) (columns l)
         ++ ("index_right", map index_cell ps)
         :: map (fun '(c, vs) => (suffix_if lnames "_right" c,
                                  map (right_cell vs) ps)) rcols)%list).

(** Lines 112-117: [districts_with_gov]. *)
Definition example3 (within : geom -> geom -> bool)
  (districts governorates : frame) : result frame :=
  l <- select districts ["name_en"; "geometry"] ;;
  r <- select governorates ["name_en"; "geometry"] ;;
  sjoin_left within l r.

Definition gov : frame :=
  mkFrame (Some "EPSG:4326") 1
    [("name_en", [VStr "Amman"]); ("geometry", [VGeom sq])].

(** A containment test for the sample data: a polygon lies in a
    governorate when its first vertex has x at most 1. *)
Definition within_test (a b : geom) : bool :=
  match a with (x, _) :: _ => Qle_bool x 1 | [] => false end.

Definition bnd_far : frame :=
  setcol bnd "geometry" [VGeom sq; VGeom [(5,5)]%Q].

Lemma join_pairs_in p nl nr i o :
  In (i, o) (join_pairs p nl nr) ->
  i < nl /\
  match o with
  | None => forall j, j < nr -> p i j = false
  | Some j => j < nr /\ p i j = true
  end.
Proof.
  unfold join_pairs. intros H. apply in_flat_map in H as (i' & Hi' & H).
  apply in_seq in Hi'.
  destruct (filter (p i') (seq 0 nr)) as [|j0 js] eqn:Ef.
  - destruct H as [H|[]]. injection H as E1 E2. subst i o. split; [lia|].
    intros j Hj. destruct (p i' j) eqn:E; auto.
    assert (Hin : In j (filter (p i') (seq 0 nr)))
      by (apply filter_In; split; auto; apply in_seq; lia).
    rewrite Ef in Hin. contradiction.
  - apply in_map_iff in H as (j & Hj & Hin). injection Hj as E1 E2.
    subst i o. rewrite <- Ef in Hin. apply filter_In in Hin as [Hin Hp].
    apply in_seq in Hin. split; [lia|split; [lia|auto]].
Qed.

Lemma join_pairs_covers p nl nr i :
  i < nl -> exists o, In (i, o) (join_pairs p nl nr).
Proof.
  intros Hi. unfold join_pairs.
  destruct (filter (p i) (seq 0 nr)) as [|j js] eqn:Ef.
  - exists None. apply in_flat_map. exists i.
    split; [apply in_seq; lia|]. rewrite Ef. now left.
  - exists (Some j). apply in_flat_map. exists i.
    split; [apply in_seq; lia|]. rewrite Ef. now left.
Qed.

Lemma join_pairs_length p nl nr :
  nl <= length (join_pairs p nl nr) /\
  ((forall i j1 j2, i < nl -> j1 < nr -> j2 < nr ->
      p i j1 = true -> p i j2 = true -> j1 = j2) ->
   length (join_pairs p nl nr) = nl).
Proof.
  split.
  - unfold join_pairs. rewrite <- (length_seq nl 0) at 1.
    apply flat_map_length_ge. intros i.
    destruct (filter (p i) (seq 0 nr)); simpl; [lia|].
    rewrite length_map. simpl. lia.
  - intros Hu. unfold join_pairs.
    rewrite (flat_map_singleton _ (fun i => (i, hd_error (filter (p i) (seq 0 nr))))).
    + now rewrite length_map, length_seq.
    + intros i Hi. apply in_seq in Hi.
      assert (Hle : length (filter (p i) (seq 0 nr)) <= 1).
      { apply filter_le1; [apply seq_NoDup|].
        intros x y Hx Hy Px Py. apply in_seq in Hx, Hy.
        apply (Hu i); auto; lia. }
      destruct (filter (p i) (seq 0 nr)) as [|j [|j' js]]; simpl in *;
        auto; lia.
Qed.

(** Example 3 is a left join: its columns are [name_en_left], the
    district [geometry], [index_right] and [name_en_right]; every
    district appears (at least once, exactly once when no district lies
    within two governorates); and every output row is a district either
    paired with a governorate it lies within (its label and name) or,
    when it lies within none, padded with NaN. *)
Theorem example3_left_join within d g out ne dg gn gg
  (H : example3 within d g = Ok out)
  (Hne : lookup "name_en" (columns d) = Some ne)
  (Hdg : lookup "geometry" (columns d) = Some dg)
  (Hgn : lookup "name_en" (columns g) = Some gn)
  (Hgg : lookup "geometry" (columns g) = Some gg) :
  col_names out = ["name_en_left"; "geometry"; "index_right"; "name_en_right"] /\
  nrows d <= nrows out /\
  ((forall i j1 j2, i < nrows d -> j1 < nrows g -> j2 < nrows g ->
      within_cell within (nth i dg VNaN) (nth j1 gg VNaN) = true ->
      within_cell within (nth i dg VNaN) (nth j2 gg VNaN) = true -> j1 = j2) ->
   nrows out = nrows d) /\
  (forall i, i < nrows d -> exists k, k < nrows out /\
     firstn 2 (row_values out k) = [nth i ne VNaN; nth i dg VNaN]) /\
  (forall k, k < nrows out -> exists i, i < nrows d /\
     ((row_values out k = [nth i ne VNaN; nth i dg VNaN; VNaN; VNaN] /\
       forall j, j < nrows g ->
         within_cell within (nth i dg VNaN) (nth j gg VNaN) = false) \/
      (exists j, j < nrows g /\
         within_cell within (nth i dg VNaN) (nth j gg VNaN) = true /\
         row_values out k = [nth i ne VNaN; nth i dg VNaN;
                             VNum (inject_Z (Z.of_nat j)); nth j gn VNaN]))).
Proof.
  unfold example3 in H.
  destruct (select d _) as [l|e] eqn:Hl; [|discriminate].
  destruct (select g _) as [r|e] eqn:Hr; [|discriminate].
  cbn [bind] in H. apply select_ok in Hl, Hr. simpl in Hl, Hr.
  rewrite Hne, Hdg in Hl. rewrite Hgn, Hgg in Hr. subst l r.
  unfold sjoin_left in H. simpl in H.
  set (ps := join_pairs _ (nrows d) (nrows g)) in H.
  inversion H; subst out. clear H.
  destruct (join_pairs_length
              (fun i j => within_cell within (nth i dg VNaN) (nth j gg VNaN))
              (nrows d) (nrows g)) as [Hge Huniq].
  assert (Hrow : forall k, k < length ps ->
            row_values (mkFrame (crs d) (length ps)
              [("name_en_left", map (left_cell ne) ps);
               ("geometry", map (left_cell dg) ps);
               ("index_right", map index_cell ps);
               ("name_en_right", map (right_cell gn) ps)]) k
            = [left_cell ne (nth k ps (0, None)); left_cell dg (nth k ps (0, None));
               index_cell (nth k ps (0, None)); right_cell gn (nth k ps (0, None))]).
  { intros k Hk. unfold row_values. simpl.
    rewrite !(nth_map_default _ _ _ (0, None)) by exact Hk. reflexivity. }
  split; [reflexivity|]. split; [exact Hge|]. split; [exact Huniq|]. split.
  - intros i Hi.
    destruct (join_pairs_covers
                (fun i j => within_cell within (nth i dg VNaN) (nth j gg VNaN))
                (nrows d) (nrows g) i Hi) as [o Ho].
    fold ps in Ho.
    destruct (In_nth _ _ (0, None) Ho) as (k & Hk & Hnth).
    exists k. split; [exact Hk|]. rewrite Hrow by exact Hk.
    rewrite Hnth. reflexivity.
  - intros k Hk. cbn [nrows] in Hk. rewrite Hrow by exact Hk.
    destruct (nth k ps (0, None)) as [i o] eqn:Hnth.
    assert (Hin : In (i, o) ps) by (rewrite <- Hnth; apply nth_In; exact Hk).
    apply join_pairs_in in Hin as [Hi Ho]. exists i. split; [exact Hi|].
    destruct o as [j|].
    + right. exists j. destruct Ho as [Hj Hw]. auto.
    + left. auto.
Qed.

Lemma example3_left_join_witness :
  exists out, example3 within_test bnd_far gov = Ok out /\
    nrows out = nrows bnd_far.
Proof.
  eexists. split; [reflexivity|].
  destruct (example3_left_join within_test bnd_far gov _
              [VStr "Amman"; VStr "Irbid"] [VGeom sq; VGeom [(5,5)]%Q]
              [VStr "Amman"] [VGeom sq] eq_refl eq_refl eq_refl eq_refl eq_refl)
    as (_ & _ & Hn & _).
  apply Hn. intros i j1 j2 _ H1 H2 _ _. simpl in *. lia.
Defined.

(** * Example 4: the three most densely populated districts (148-152) *)

(** The positions of the numeric cells of a column. *)
Definition numeric_rows (col : list value) : list nat :=
  filter (fun i => num_cell (nth i col VNaN)) (seq 0 (length col)).

(** The float order on numeric cells: -inf, the numbers, +inf. *)
Definition vle (a b : value) : bool :=
  match a, b with
  | VInf true, _ => true
  | _, VInf true => false
  | _, VInf false => true
  | VInf false, _ => false
  | VNum x, VNum y => Qle_bool x y
  | _, _ => false
  end.

(** Insert row [i] into a list of rows sorted by decreasing value, after
    the rows of equal value (ties keep their original order). *)
Fixpoint insert_desc (col : list value) (i : nat) (acc : list nat) : list nat :=
  match acc with
  | [] => [i]
  | j :: t =>
      if negb (vle (nth i col VNaN) (nth j col VNaN)) then i :: j :: t
      else j :: insert_desc col i t
  end.

Definition sort_desc (col : list value) (l : list nat) : list nat :=
  fold_left (fun acc i => insert_desc col i acc) l [].






Section SortDesc.
Variable col : list value.






End SortDesc.












(** * Summary statistics (lines 97-101 and 143-146) *)

(** Float addition on cells: NaN propagates, inf + (-inf) is NaN. *)
Definition vadd (a b : value) : value :=
  match a, b with
  | VNum x, VNum y => VNum (x + y)%Q
  | VInf s, VInf t => if Bool.eqb s t then VInf s else VNaN
  | VInf s, VNum _ | VNum _, VInf s => VInf s
  | _, _ => VNaN
  end.

(** The reductions below follow pandas on a float64 column, with
    [skipna=True]: NaN cells are skipped.  A column holding strings or
    geometries is of object dtype, whose reductions behave differently
    (string concatenation, lexicographic order, or an error); they are
    reported here as a [TypeError] and never arise in the script, whose
    reduced columns are numeric. *)
Definition float_values (col : list value) : result (list value) :=
  if existsb object_cell col then
    Err (TypeError "reduction over an object column")
  else Ok (filter num_cell col).

(** [Series.sum()]: 0 for an empty or all-NaN column.  Sums here are
    exact rationals: float64 rounding and overflow to inf are not
    modelled, so only properties that do not depend on them (the empty
    and all-NaN cases, the absence of errors) are stated about [vsum]
    and [vmean]. *)
Definition vsum (col : list value) : result value :=
  vs <- float_values col ;;
  Ok (fold_left vadd vs (VNum 0%Q)).

(** [Series.mean()]: NaN for an empty or all-NaN column. *)
Definition vmean (col : list value) : result value :=
  vs <- float_values col ;;
  match vs with
  | [] => Ok VNaN
  | _ => vdiv (fold_left vadd vs (VNum 0%Q))
              (VNum (inject_Z (Z.of_nat (length vs))))
  end.

Definition min_step (m v : value) : value := if vle m v then m else v.
Definition max_step (m v : value) : value := if vle v m then m else v.

Definition vmin (col : list value) : result value :=
  vs <- float_values col ;;
  match vs with
  | [] => Ok VNaN
  | x :: t => Ok (fold_left min_step t x)
  end.

Definition vmax (col : list value) : result value :=
  vs <- float_values col ;;
  match vs with
  | [] => Ok VNaN
  | x :: t => Ok (fold_left max_step t x)
  end.

(** [Series.median()]: the middle value of the sorted non-NaN values, or
    the mean of the two middle ones for an even count. *)
Definition vmedian (col : list value) : result value :=
  vs <- float_values col ;;
  let sorted := map (fun i => nth i col VNaN)
                    (sort_desc col (numeric_rows col)) in
  let n := length sorted in
  match n with
  | 0 => Ok VNaN
  | _ => if Nat.odd n then Ok (nth (n / 2) sorted VNaN)
         else vdiv (vadd (nth (n / 2 - 1) sorted VNaN) (nth (n / 2) sorted VNaN))
                   (VNum 2%Q)
  end.

(** Lines 97-101: mean, median, min and max of the disease rate. *)
Definition example2_stats (districts_csv : frame)
  : result (value * value * value * value) :=
  col <- getcol districts_csv measure_col ;;
  mean <- vmean col ;; med <- vmedian col ;;
  mn <- vmin col ;; mx <- vmax col ;;
  Ok (mean, med, mn, mx).

(** Lines 143-146: total and mean area, total population, mean
    density. *)
Definition example4_stats (districts_utm : frame)
  : result (value * value * value * value) :=
  a <- getcol districts_utm "area_km2" ;;
  ta <- vsum a ;; ma <- vmean a ;;
  p <- getcol districts_utm "population" ;;
  tp <- vsum p ;;
  d <- getcol districts_utm "pop_density_per_km2" ;;
  md <- vmean d ;;
  Ok (ta, ma, tp, md).

Definition finite_or_nan (v : value) : bool :=
  match v with VNum _ | VNaN => true | _ => false end.


Lemma float_values_ok col :
  existsb object_cell col = false -> float_values col = Ok (filter num_cell col).
Proof. unfold float_values. intros ->. reflexivity. Qed.

Lemma filter_num_finite col :
  forallb finite_or_nan col = true ->
  exists qs, filter num_cell col = map VNum qs /\
    (forall q, In q qs <-> In (VNum q) col).
Proof.
  induction col as [|v t IH]; simpl; intros H.
  - exists []. simpl. split; [reflexivity|]. tauto.
  - apply andb_prop in H as [Hv Ht]. destruct (IH Ht) as (qs & Hf & Hin).
    destruct v as [|q|s| |]; simpl in Hv; try discriminate; simpl.
    + exists (q :: qs). simpl. rewrite Hf. split; [reflexivity|].
      intros q'. rewrite Hin. split; intros [E|E]; auto.
      * left. congruence.
      * left. congruence.
    + exists qs. split; [exact Hf|]. intros q'. rewrite Hin.
      split; auto. intros [E|E]; [discriminate|exact E].
Qed.

Lemma finite_no_object col :
  forallb finite_or_nan col = true -> existsb object_cell col = false.
Proof.
  induction col as [|v t IH]; simpl; auto. intros H.
  apply andb_prop in H as [Hv Ht]. rewrite IH by exact Ht.
  destruct v; simpl in *; congruence.
Qed.

Lemma fold_min_num x qs :
  exists a, fold_left min_step (map VNum qs) (VNum x) = VNum a /\
    In a (x :: qs) /\ forall q, In q (x :: qs) -> (a <= q)%Q.
Proof.
  revert x. induction qs as [|y t IH]; intros x; simpl.
  - exists x. split; [reflexivity|]. split; [auto|].
    intros q [<-|[]]. apply Qle_refl.
  - unfold min_step at 2. simpl. destruct (Qle_bool x y) eqn:E.
    + destruct (IH x) as (a & Ha & Hin & Hle). exists a.
      split; [exact Ha|]. split.
      * destruct Hin as [<-|Hin]; simpl; auto.
      * apply Qle_bool_iff in E. intros q [<-|[<-|Hq]].
        -- apply Hle. simpl. auto.
        -- eapply Qle_trans; [apply Hle; simpl; auto|exact E].
        -- apply Hle. simpl. auto.
    + destruct (IH y) as (a & Ha & Hin & Hle). exists a.
      split; [exact Ha|]. split.
      * destruct Hin as [<-|Hin]; simpl; auto.
      * assert (E' : (y <= x)%Q).
        { apply Qlt_le_weak, Qnot_le_lt. intros Hxy.
          apply Qle_bool_iff in Hxy. congruence. }
        intros q [<-|[<-|Hq]].
        -- eapply Qle_trans; [apply Hle; simpl; auto|exact E'].
        -- apply Hle. simpl. auto.
        -- apply Hle. simpl. auto.
Qed.

Lemma fold_max_num x qs :
  exists b, fold_left max_step (map VNum qs) (VNum x) = VNum b /\
    In b (x :: qs) /\ forall q, In q (x :: qs) -> (q <= b)%Q.
Proof.
  revert x. induction qs as [|y t IH]; intros x; simpl.
  - exists x. split; [reflexivity|]. split; [auto|].
    intros q [<-|[]]. apply Qle_refl.
  - unfold max_step at 2. simpl. destruct (Qle_bool y x) eqn:E.
    + destruct (IH x) as (b & Hb & Hin & Hle). exists b.
      split; [exact Hb|]. split.
      * destruct Hin as [<-|Hin]; simpl; auto.
      * apply Qle_bool_iff in E. intros q [<-|[<-|Hq]].
        -- apply Hle. simpl. auto.
        -- eapply Qle_trans; [exact E|apply Hle; simpl; auto].
        -- apply Hle. simpl. auto.
    + destruct (IH y) as (b & Hb & Hin & Hle). exists b.
      split; [exact Hb|]. split.
      * destruct Hin as [<-|Hin]; simpl; auto.
      * assert (E' : (x <= y)%Q).
        { apply Qlt_le_weak, Qnot_le_lt. intros Hxy.
          apply Qle_bool_iff in Hxy. congruence. }
        intros q [<-|[<-|Hq]].
        -- eapply Qle_trans; [exact E'|apply Hle; simpl; auto].
        -- apply Hle. simpl. auto.
        -- apply Hle. simpl. auto.
Qed.

Definition nan_cell (v : value) : bool :=
  match v with VNaN => true | _ => false end.

Lemma vmin_num col q0 t :
  float_values col = Ok (map VNum (q0 :: t)) ->
  exists a, vmin col = Ok (VNum a) /\ In a (q0 :: t) /\
    forall q, In q (q0 :: t) -> (a <= q)%Q.
Proof.
  unfold vmin. intros ->. cbn [bind map].
  destruct (fold_min_num q0 t) as (a & Ha & Hin & Hle).
  exists a. rewrite Ha. auto.
Qed.

Lemma vmax_num col q0 t :
  float_values col = Ok (map VNum (q0 :: t)) ->
  exists b, vmax col = Ok (VNum b) /\ In b (q0 :: t) /\
    forall q, In q (q0 :: t) -> (q <= b)%Q.
Proof.
  unfold vmax. intros ->. cbn [bind map].
  destruct (fold_max_num q0 t) as (b & Hb & Hin & Hle).
  exists b. rewrite Hb. auto.
Qed.

Lemma mapM_forallb {A} (f : A -> result value) (P : value -> bool) l l' :
  mapM f l = Ok l' ->
  (forall x y, In x l -> f x = Ok y -> P y = true) ->
  forallb P l' = true.
Proof.
  revert l'. induction l as [|x t IH]; simpl; intros l' H HP.
  - inversion H. reflexivity.
  - destruct (f x) as [y|e] eqn:Ef; simpl in H; [|discriminate].
    destruct (mapM f t) as [ys|e] eqn:Et; simpl in H; [|discriminate].
    inversion H; subst. simpl. rewrite (HP x y (or_introl eq_refl) Ef).
    apply IH; [reflexivity|]. intros x' y' Hx' E'.
    apply (HP x' y'); [right; exact Hx'|exact E'].
Qed.

Lemma forallb_no_object l :
  forallb (fun v => negb (object_cell v)) l = true -> existsb object_cell l = false.
Proof.
  induction l as [|v t IH]; simpl; auto. intros H.
  apply andb_prop in H as [Hv Ht]. rewrite IH by exact Ht.
  destruct (object_cell v); simpl in *; congruence.
Qed.

Lemma vdiv_not_object x y z : vdiv x y = Ok z -> object_cell z = false.
Proof.
  destruct x as [|x|[]| |], y as [|y|[]| |]; simpl; intros H; try discriminate;
    try (inversion H; reflexivity).
  destruct (Qeq_bool y 0%Q); [destruct (Qeq_bool x 0%Q)|];
    inversion H; reflexivity.
Qed.

Lemma vadd_not_object x y : object_cell (vadd x y) = false.
Proof.
  destruct x as [|x|[]| |], y as [|y|[]| |]; try reflexivity; simpl;
    destruct (Bool.eqb _ _); reflexivity.
Qed.

Lemma vdiv_num_ok x n : object_cell x = false -> exists z, vdiv x (VNum n) = Ok z.
Proof.
  destruct x as [|x|[]| |]; simpl; intros H; try discriminate; eauto.
  destruct (Qeq_bool n 0%Q); [destruct (Qeq_bool x 0%Q)|]; eauto.
Qed.

Lemma vmean_ok col : existsb object_cell col = false -> exists m, vmean col = Ok m.
Proof.
  intros H. unfold vmean. rewrite float_values_ok by exact H. cbn [bind].
  destruct (filter num_cell col) as [|v t]; [eauto|].
  apply vdiv_num_ok. destruct t as [|w t]; simpl.
  - destruct v as [|x|[]| |]; reflexivity.
  - rewrite <- fold_left_rev_right. destruct (rev t); simpl;
      apply vadd_not_object.
Qed.

Lemma all_nan_values l : forallb nan_cell l = true -> float_values l = Ok [].
Proof.
  intros H. unfold float_values.
  assert (Ho : existsb object_cell l = false).
  { induction l as [|v t IH]; simpl in *; auto.
    apply andb_prop in H as [Hv Ht]. destruct v; simpl in *; try discriminate; auto. }
  rewrite Ho. f_equal. induction l as [|v t IH]; simpl in *; auto.
  apply andb_prop in H as [Hv Ht]. destruct v; simpl in *; try discriminate.
  apply IH; auto.
Qed.

Lemma vmedian_ok col :
  existsb object_cell col = false -> exists d, vmedian col = Ok d.
Proof.
  intros H. unfold vmedian. rewrite float_values_ok by exact H. cbn [bind].
  destruct (length _) as [|n]; [eauto|].
  destruct (Nat.odd (S n)); [eauto|].
  apply vdiv_num_ok, vadd_not_object.
Qed.

(** Lines 97-101: on a rate column of finite numbers and NaN with at least
    one number, the four statistics are printed without error, and the
    printed min and max are numbers of the column (never NaN) bounding
    every number in it. *)
Theorem example2_stats_min_max df col
  (Hc : lookup measure_col (columns df) = Some col)
  (Hf : forallb finite_or_nan col = true)
  (Hne : existsb num_cell col = true) :
  exists mean med mn mx,
    example2_stats df = Ok (mean, med, VNum mn, VNum mx) /\
    In (VNum mn) col /\ In (VNum mx) col /\
    (forall q, In (VNum q) col -> (mn <= q <= mx)%Q).
Proof.
  unfold example2_stats, getcol. rewrite Hc. cbn [bind].
  pose proof (finite_no_object col Hf) as Ho.
  destruct (filter_num_finite col Hf) as (qs & Hfq & Hin).
  assert (Hfv : float_values col = Ok (map VNum qs)).
  { rewrite float_values_ok by exact Ho. rewrite Hfq. reflexivity. }
  destruct qs as [|q0 t].
  { exfalso. apply existsb_exists in Hne as (v & Hv & Hn).
    assert (Hvf : In v (filter num_cell col)) by (apply filter_In; auto).
    rewrite Hfq in Hvf. destruct Hvf. }
  destruct (vmin_num col q0 t Hfv) as (a & Ha & HaIn & Hale).
  destruct (vmax_num col q0 t Hfv) as (b & Hb & HbIn & Hbge).
  destruct (vmean_ok col Ho) as (m & Hm).
  destruct (vmedian_ok col Ho) as (d & Hd).
  rewrite Hm, Hd, Ha, Hb. cbn [bind].
  exists m, d, a, b. split; [reflexivity|].
  split; [apply Hin; exact HaIn|]. split; [apply Hin; exact HbIn|].
  intros q Hq. apply Hin in Hq. auto.
Qed.

(** A rate table with a missing rate. *)
Definition csv_rates : frame :=
  mkFrame None 4
    [("wikidata", [VStr "Q1"; VStr "Q2"; VStr "Q3"; VStr "Q4"]);
     (measure_col, [VNum 12%Q; VNaN; VNum 30%Q; VNum (15 # 2)])].

Lemma example2_stats_min_max_witness :
  lookup measure_col (columns csv_rates) =
    Some [VNum 12%Q; VNaN; VNum 30%Q; VNum (15 # 2)] /\
  exists mean med mn mx,
    example2_stats csv_rates = Ok (mean, med, VNum mn, VNum mx) /\
    (forall q, In (VNum q) [VNum 12%Q; VNaN; VNum 30%Q; VNum (15 # 2)] ->
       (mn <= q <= mx)%Q).
Proof.
  split; [reflexivity|].
  destruct (example2_stats_min_max csv_rates _ eq_refl eq_refl eq_refl)
    as (mean & med & mn & mx & H & _ & _ & H1).
  exists mean, med, mn, mx. auto.
Defined.

(** Lines 143-146 after Example 4: when every population cell is NaN, the
    statistics are still printed without error; the total population is
    reported as 0 and the mean density as NaN. *)
Theorem example4_stats_nan_population reproject area df u p
  (H : example4 reproject area df = Ok u)
  (Hp : lookup pop_col (columns df) = Some p)
  (Hnan : forallb nan_cell p = true) :
  exists ta ma, example4_stats u = Ok (ta, ma, VNum 0%Q, VNaN).
Proof.
  destruct (example4_ok _ _ _ _ H) as (src & g & a & Hc & Hg & Ha & Hcase).
  destruct Hcase as [[Hmem _] | (p' & dd & Hp' & Hd & Hu)].
  { apply lookup_some_mem in Hp. unfold col_names in Hmem. congruence. }
  rewrite Hp in Hp'. injection Hp' as <-.
  assert (La : lookup "area_km2" (columns u) = Some a).
  { subst u. simpl. rewrite !lookup_set_column_other by reflexivity.
    apply lookup_set_column_same. }
  assert (Lp : lookup "population" (columns u) = Some p).
  { subst u. simpl. rewrite lookup_set_column_other by reflexivity.
    apply lookup_set_column_same. }
  assert (Ld : lookup "pop_density_per_km2" (columns u) = Some dd).
  { subst u. simpl. apply lookup_set_column_same. }
  assert (Hao : existsb object_cell a = false).
  { apply forallb_no_object.
    apply (mapM_forallb _ _ _ _ Ha). intros x y _ Ey.
    rewrite (vdiv_not_object _ _ _ Ey). reflexivity. }
  assert (Hdn : forallb nan_cell dd = true).
  { apply (mapM_forallb _ _ _ _ Hd). intros [x y] z Hxy Ez. simpl in Ez.
    apply in_combine_l in Hxy. rewrite forallb_forall in Hnan.
    specialize (Hnan x Hxy). destruct x; try discriminate.
    rewrite (vdiv_nan_left _ _ Ez). reflexivity. }
  destruct (vmean_ok a Hao) as (ma & Hma).
  unfold example4_stats, getcol. rewrite La, Lp, Ld. cbn [bind].
  unfold vsum at 1. rewrite float_values_ok by exact Hao. cbn [bind].
  rewrite Hma. cbn [bind].
  unfold vsum. rewrite (all_nan_values p Hnan). cbn [bind].
  unfold vmean. rewrite (all_nan_values dd Hdn). cbn [bind].
  eexists; eexists. reflexivity.
Qed.

(** District boundaries whose population cells are all missing. *)
Definition bnd_nopop : frame := setcol bnd pop_col [VNaN; VNaN].

Definition utm_nopop : frame :=
  match example4 scale_reproject shoelace bnd_nopop with
  | Ok u => u
  | Err _ => bnd_nopop
  end.

Lemma example4_stats_nan_population_witness :
  example4 scale_reproject shoelace bnd_nopop = Ok utm_nopop /\
  exists ta ma, example4_stats utm_nopop = Ok (ta, ma, VNum 0%Q, VNaN).
Proof.
  split; [reflexivity|].
  exact (example4_stats_nan_population scale_reproject shoelace bnd_nopop
           utm_nopop [VNaN; VNaN] eq_refl eq_refl eq_refl).
Defined.

(** * Example 2: key columns of different dtypes (lines 71-76) *)

Lemma keys_compatible_false kv ak :
  kv <> [] -> ak <> [] ->
  existsb object_cell kv <> existsb object_cell ak ->
  keys_compatible kv ak = false.
Proof.
  intros Hk Ha Hd. destruct kv as [|v kv]; [contradiction|].
  destruct ak as [|w ak]; [contradiction|].
  unfold keys_compatible.
  destruct (existsb object_cell (v :: kv)), (existsb object_cell (w :: ak));
    simpl; congruence.
Qed.

(** The merge of lines 71-76 fails with pandas' [ValueError] when one of
    the two non-empty key columns (the resolved boundary key, the
    attribute [wikidata]) holds strings and the other only numbers,
    whether or not the keys are duplicated. *)
Theorem reconcile_key_dtype_mismatch b a kv ak ms
  (Hkv : getcol b (resolve_join_col b) = Ok kv)
  (Hak : getcol a "wikidata" = Ok ak)
  (Hms : getcol a measure_col = Ok ms)
  (Hkn : kv <> []) (Han : ak <> [])
  (Hdt : existsb object_cell kv <> existsb object_cell ak) :
  exists msg, reconcile b a = Err (ValueError msg).
Proof.
  unfold reconcile, resolve_step. rewrite Hkv. cbn [bind].
  rewrite (select_key_measure a ak ms Hak Hms). cbn [bind].
  unfold merge_left.
  assert (Hl : getcol (setcol b "wikidata_join" kv) "wikidata_join" = Ok kv)
    by (apply getcol_lookup, lookup_set_column_same).
  assert (Hr : getcol (mkFrame (crs a) (nrows a)
                         [("wikidata", ak); (measure_col, ms)]) "wikidata"
               = Ok ak) by reflexivity.
  rewrite Hl, Hr. cbn [bind].
  rewrite (keys_compatible_false kv ak Hkn Han Hdt). cbn [negb].
  eexists. reflexivity.
Qed.

(** Attribute rows whose [wikidata] keys were read as numbers. *)
Definition attrs_numkeys : frame :=
  mkFrame None 2
    [("wikidata", [VNum 1%Q; VNum 1%Q]);
     (measure_col, [VNum 3%Q; VNum 4%Q])].

Lemma reconcile_key_dtype_mismatch_witness :
  exists msg, reconcile bnd attrs_numkeys = Err (ValueError msg).
Proof.
  apply (reconcile_key_dtype_mismatch bnd attrs_numkeys
           [VStr "Q1"; VStr "Q2"] [VNum 1%Q; VNum 1%Q] [VNum 3%Q; VNum 4%Q]);
    try reflexivity; discriminate.
Defined.
